(** * ImageGenerationService (src/image-generation-service.ts)

    A shallow embedding of the Apps Script batch job that walks the ad
    groups of an account, tops up the generated images of each one and
    checkpoints its position in the script properties.

    Layout: JavaScript string primitives used by the service, the data
    and configuration records, the collaborators (ads, storage, Vertex
    AI, clock, regular expressions) as an interface over an abstract
    world, a state-and-exception monad with fuel for the one unbounded
    loop, the methods of the class, and then the properties. *)

From Stdlib Require Import ZArith Ascii String List DecimalString DecimalPos DecimalZ Lia.
From stdpp Require Import gmap strings list.

Open Scope Z_scope.

(** ** JavaScript string primitives *)

Module JsString.

(** [Number.prototype.toString] on an integer (ids, counters and
    [Date.now()] are integers well below 1e21, where JS switches to
    exponent notation). *)
Definition Z_toString (z : Z) : string :=
  NilZero.string_of_int (Z.to_int z).

(** [s.slice(0, e)]: a negative [e] counts from the end of [s], and
    the end position is clamped to [0 .. s.length]. *)
Definition slice0 (s : string) (e : Z) : string :=
  let len := Z.of_nat (String.length s) in
  let to := if e <? 0 then Z.max (len + e) 0 else Z.min e len in
  String.substring 0 (Z.to_nat to) s.

(** [GetSubstitution] of ECMA-262 for a string pattern: no captures,
    no named captures.  [$$], [$&], [$`] and [$'] are expanded, every
    other character (also a [$] before a digit or [<]) is copied. *)
Fixpoint GetSubstitution (matched before after repl : string) : string :=
  match repl with
  | EmptyString => EmptyString
  | String c repl' =>
      if Ascii.eqb c "$" then
        match repl' with
        | String d repl'' =>
            if Ascii.eqb d "$" then
              String "$" (GetSubstitution matched before after repl'')
            else if Ascii.eqb d "&" then
              matched +:+ GetSubstitution matched before after repl''
            else if Ascii.eqb d "`" then
              before +:+ GetSubstitution matched before after repl''
            else if Ascii.eqb d "'" then
              after +:+ GetSubstitution matched before after repl''
            else String c (GetSubstitution matched before after repl')
        | EmptyString => String c EmptyString
        end
      else String c (GetSubstitution matched before after repl')
  end.

(** The scan of [String.prototype.replaceAll] with a string pattern:
    matches are taken left to right and do not overlap.  [before] is
    the part of the subject already passed and [skip] the number of
    characters of the current match still to be dropped. *)
Fixpoint replaceAll_scan (pat repl before s : string) (skip : nat) : string :=
  match s with
  | EmptyString => EmptyString
  | String c s' =>
      match skip with
      | S k => replaceAll_scan pat repl (before +:+ String c EmptyString) s' k
      | O =>
          if String.prefix pat s then
            let after :=
              String.substring (String.length pat)
                (String.length s - String.length pat) s in
            GetSubstitution pat before after repl
              +:+ replaceAll_scan pat repl (before +:+ String c EmptyString) s'
                    (String.length pat - 1)
          else
            String c
              (replaceAll_scan pat repl (before +:+ String c EmptyString) s' O)
      end
  end.

(** [s.replaceAll(pat, repl)] for a non-empty string [pat] (the
    service only searches for ["/"] and for [${key}]). *)
Definition replaceAll (s pat repl : string) : string :=
  replaceAll_scan pat repl EmptyString s O.

(** [Array.prototype.join()] with the default separator. *)
Definition join (l : list string) : string := String.concat "," l.

(** [[...new Set(l)]]: the distinct elements in order of first
    occurrence. *)
Fixpoint dedup_from (seen l : list string) : list string :=
  match l with
  | [] => []
  | x :: l' =>
      if bool_decide (x ∈ seen) then dedup_from seen l'
      else x :: dedup_from (x :: seen) l'
  end.

Definition dedup (l : list string) : list string := dedup_from [] l.

(** The one-character string holding a double quote. *)
Definition dquote : string := String (ascii_of_nat 34) EmptyString.

(** Truthiness of a string value: only the empty string is falsy. *)
Definition truthy (s : string) : bool :=
  match s with EmptyString => false | String _ _ => true end.

End JsString.

Import JsString.

(** ** Data *)

(** One row of [GoogleAdsApi.getAdGroups()]: [row.customer.id],
    [row.adGroup.id] and [row.adGroup.name]. *)
Record Customer := { customer_id : string }.
Record AdGroupInfo := { adGroup_id : string; adGroup_name : string }.
Record AdGroupRow := { customer : Customer; adGroup : AdGroupInfo }.

(** [ADIOS_MODES] and [CONFIG] are imported from ./config; only their
    use by the service is known.  They are taken as data: the two modes
    the service names, any other configured value as [OTHER_MODE], and
    one field per configuration entry the service reads. *)
Inductive ADIOS_MODES := AD_GROUP | KEYWORDS | OTHER_MODE (value : string).

Record Config := {
  Generated_DIR : string;
  Uploaded_DIR : string;
  Validated_DIR : string;
  Number_of_images_per_Ad_Group : Z;
  Adios_Mode : ADIOS_MODES;
  Ad_Group_Name_Regex : string;
  ImgGen_Prompt : string;
  ImgGen_Prompt_Suffix : string;
  Text_Prompt_Context : string;
  Text_Prompt : string;
  Text_Prompt_Suffix : string
}.

(** What the service does to the outside, newest first in a trace. *)
Inductive Event :=
| EvLog (msg : string)
| EvConsoleError (msg : string)
| EvDeleteTrigger
| EvCreateTrigger
| EvGetAdGroups
| EvSetProperty (key value : string)
| EvDeleteProperty (key : string)
| EvCountImages (customerId adGroupId : string) (dirs : list string)
| EvGetKeywords (adGroupId : string)
| EvGemini (textPrompt : string)
| EvVision (imgPrompt : string) (imgCount : Z)
| EvUpload (image filename folder : string).

Inductive JsError :=
| TypeError (msg : string)
| SyntaxError (msg : string).

(** How a block of statements was left: by running off its end (also
    through [continue]) or through [return]. *)
Inductive completion := Normal | Return.

(** The collaborators of the service over an abstract outside world
    [W]: every call may read and change the world.  [R] is the type of
    compiled regular expressions of the JavaScript engine. *)
Record Collaborators (W R : Type) := {
  (* GoogleAdsApi *)
  getAdGroups : W -> list AdGroupRow * W;
  (* the [adGroupCriterion.keyword.text] of each returned row *)
  getKeywordsForAdGroup : string -> W -> list string * W;
  (* GcsApi *)
  countImages : string -> string -> list string -> W -> Z * W;
  uploadImage : string -> string -> string -> W -> W;
  (* VertexAiApi; [None] is a null or undefined result *)
  VISION_API_LIMIT : Z;
  callVisionApi : string -> Z -> W -> option (list string) * W;
  callGeminiApi : string -> W -> string * W;
  (* Date.now() and new Date().getTime() *)
  Date_now : W -> Z * W;
  (* new RegExp(source), [None] when it throws; regex.toString();
     str.match(regex): [None] for null, otherwise the [groups] of the
     match, [None] when the expression has no named group *)
  RegExp_new : string -> option R;
  RegExp_toString : R -> string;
  String_match : string -> R -> option (option (list (string * string)));
  (* the ceiling of the watchdog of Triggerable, in milliseconds *)
  MAX_EXECUTION_TIME : Z
}.

Arguments getAdGroups {W R} _ _.
Arguments getKeywordsForAdGroup {W R} _ _ _.
Arguments countImages {W R} _ _ _ _ _.
Arguments uploadImage {W R} _ _ _ _ _.
Arguments VISION_API_LIMIT {W R} _.
Arguments callVisionApi {W R} _ _ _ _.
Arguments callGeminiApi {W R} _ _ _.
Arguments Date_now {W R} _ _.
Arguments RegExp_new {W R} _ _.
Arguments RegExp_toString {W R} _ _.
Arguments String_match {W R} _ _ _.
Arguments MAX_EXECUTION_TIME {W R} _.

(** [Array.prototype.findIndex]: the first index whose element
    satisfies [p], or -1. *)
Fixpoint findIndex_from {A} (p : A -> bool) (l : list A) (k : Z) : Z :=
  match l with
  | [] => -1
  | x :: l' => if p x then k else findIndex_from p l' (k + 1)
  end.

Definition findIndex {A} (p : A -> bool) (l : list A) : Z :=
  findIndex_from p l 0.

(** [l[i]] for an integer [i]: undefined outside [0 .. l.length - 1]. *)
Definition index_get {A} (l : list A) (i : Z) : option A :=
  if i <? 0 then None else l !! Z.to_nat i.

(** ** The state of an invocation and its monad *)

Section Service.

Context {W R : Type}.
Variable api : Collaborators W R.
Variable CONFIG : Config.

(** The script properties, the number of pending time-based triggers
    of the service, the outside world, and the trace so far. *)
Record State := mkState {
  props : gmap string string;
  triggers : nat;
  world : W;
  trace : list Event
}.

Inductive outcome (A : Type) :=
| Done (a : A) (st : State)
| Throw (e : JsError) (st : State)
| OutOfFuel.

Arguments Done {A} _ _.
Arguments Throw {A} _ _.
Arguments OutOfFuel {A}.

Definition M (A : Type) : Type := State -> outcome A.

Definition ret {A} (a : A) : M A := fun st => Done a st.

Definition bind {A B} (m : M A) (k : A -> M B) : M B :=
  fun st =>
    match m st with
    | Done a st' => k a st'
    | Throw e st' => Throw e st'
    | OutOfFuel => OutOfFuel
    end.

Definition throw {A} (e : JsError) : M A := fun st => Throw e st.

Notation "x <- c1 ;; c2" := (bind c1 (fun x => c2))
  (at level 100, c1 at next level, right associativity).
Notation "c1 ;; c2" := (bind c1 (fun _ => c2))
  (at level 100, right associativity).

Definition emit (e : Event) : M unit :=
  fun st => Done tt (mkState (props st) (triggers st) (world st) (e :: trace st)).

(** A call to a collaborator: it is recorded, and the world moves. *)
Definition call {A} (e : Event) (f : W -> A * W) : M A :=
  fun st =>
    let (a, w) := f (world st) in
    Done a (mkState (props st) (triggers st) w (e :: trace st)).

(** Reading the clock leaves no trace. *)
Definition now : M Z :=
  fun st =>
    let (t, w) := Date_now api (world st) in
    Done t (mkState (props st) (triggers st) w (trace st)).

(** *** Logger and PropertiesService *)

Definition Logger_log (msg : string) : M unit := emit (EvLog msg).

Definition console_error (msg : string) : M unit := emit (EvConsoleError msg).

Definition getProperty (key : string) : M (option string) :=
  fun st => Done (props st !! key) st.

Definition setProperty (key value : string) : M unit :=
  fun st =>
    Done tt (mkState (<[key := value]> (props st)) (triggers st) (world st)
               (EvSetProperty key value :: trace st)).

Definition deleteProperty (key : string) : M unit :=
  fun st =>
    Done tt (mkState (delete key (props st)) (triggers st) (world st)
               (EvDeleteProperty key :: trace st)).

Definition cursorKey : string := "lastImageGenerationProcessedAdGroupId".

(** [`${ImageGenerationService.name}StartTime`] *)
Definition startTimeKey : string := "ImageGenerationServiceStartTime".

(** *** Triggerable

    The base class is imported from ./triggerable; the service uses
    three of its methods, described here as the specification has
    them. *)

Definition Z_ofString (s : string) : option Z :=
  option_map Z.of_int (NilZero.int_of_string s).

(** Modelled from the spec: [Triggerable.deleteTrigger], missing from
    the sources: cancel any pending self-trigger, a no-op if none
    exists. *)
Definition deleteTrigger : M unit :=
  fun st =>
    Done tt (mkState (props st) O (world st) (EvDeleteTrigger :: trace st)).

(** Modelled from the spec: [Triggerable.createTriggerForNextRun],
    missing from the sources: schedule one follow-up invocation. *)
Definition createTriggerForNextRun : M unit :=
  fun st =>
    Done tt (mkState (props st) (S (triggers st)) (world st)
               (EvCreateTrigger :: trace st)).

(** The time elapsed at clock reading [t] since the persisted
    run-start timestamp, when there is one. *)
Definition elapsed (st : State) (t : Z) : option Z :=
  t0 ← props st !! startTimeKey ≫= Z_ofString; Some (t - t0).

(** Modelled from the spec: [Triggerable.shouldTerminate], missing
    from the sources: the elapsed time since the persisted run-start
    timestamp exceeds the budget.  The spec does not say what happens
    without a readable timestamp; the watchdog then stays quiet. *)
Definition shouldTerminate : M bool :=
  t <- now ;;
  fun st =>
    match elapsed st t with
    | Some d => Done (MAX_EXECUTION_TIME api <? d) st
    | None => Done false st
    end.

(** *** ImageGenerationService *)

Definition MAX_TRIES : Z := 3.

(** [generateImageFileName(adGroupId, adGroupName)].  The parameter
    is annotated [number] but receives [adGroup.adGroup.id], the value
    [run] also stores as a script property: the model passes its
    string form, which is what [toString()] and the template
    literal produce.  [Date.now()] is read twice. *)
Definition generateImageFileName (adGroupId adGroupName : string) : M string :=
  let adGroupName := replaceAll adGroupName "/" "" in
  let fileNameLimit := 128 in
  t1 <- now ;;
  let now_ := Z_toString t1 in
  let extraChars := 2 in
  let adGroupNameLimit :=
    fileNameLimit - Z.of_nat (String.length now_)
      - Z.of_nat (String.length adGroupId) - extraChars in
  let trimmedAdGroupName := slice0 adGroupName adGroupNameLimit in
  t2 <- now ;;
  ret (adGroupId +:+ "|" +:+ trimmedAdGroupName +:+ "|" +:+ Z_toString t2).

(** [getRegexMatchGroups(str, regex)]: the groups of the match; null
    and undefined are both [None] (the caller only tests truthiness). *)
Definition getRegexMatchGroups (str : string) (regex : R)
  : option (list (string * string)) :=
  match String_match api str regex with
  | Some groups => groups
  | None => None
  end.

(** [createPrompt(obj)], [obj] given by its [Object.entries]. *)
Definition createPrompt (obj : list (string * string)) : string :=
  fold_left
    (fun prompt '(key, value) => replaceAll prompt ("${" +:+ key +:+ "}") value)
    obj (ImgGen_Prompt CONFIG).

(** The [for (const image of images)] loop of [run]. *)
Fixpoint upload_images (row : AdGroupRow) (images : list string) : M unit :=
  match images with
  | [] => ret tt
  | image :: rest =>
      filename <- generateImageFileName (adGroup_id (adGroup row))
                    (adGroup_name (adGroup row)) ;;
      let folder :=
        customer_id (customer row) +:+ "/" +:+ adGroup_id (adGroup row)
          +:+ "/" +:+ Generated_DIR CONFIG in
      call (EvUpload image filename folder)
        (fun w => (tt, uploadImage api image filename folder w)) ;;
      upload_images row rest
  end.

(** The [switch (CONFIG['Adios Mode'])] of [run]: [Some gAdsData]
    when control leaves the switch, [None] for the [continue] of the
    KEYWORDS case. *)
Definition build_gAdsData (row : AdGroupRow) : M (option string) :=
  match Adios_Mode CONFIG with
  | AD_GROUP =>
      match RegExp_new api (Ad_Group_Name_Regex CONFIG) with
      | None => throw (SyntaxError (Ad_Group_Name_Regex CONFIG))
      | Some regex =>
          match getRegexMatchGroups (adGroup_name (adGroup row)) regex with
          | Some matchGroups => ret (Some (createPrompt matchGroups))
          | None =>
              Logger_log ("No matching groups found for "
                +:+ adGroup_name (adGroup row) +:+ " with "
                +:+ RegExp_toString api regex +:+ ". Using full prompt.") ;;
              ret (Some (ImgGen_Prompt CONFIG))
          end
      end
  | KEYWORDS =>
      keywordInfo <- call (EvGetKeywords (adGroup_id (adGroup row)))
                       (getKeywordsForAdGroup api (adGroup_id (adGroup row))) ;;
      let keywordList := dedup keywordInfo in
      Logger_log ("Positive keyword list :" +:+ join keywordList) ;;
      match keywordList with
      | [] =>
          Logger_log ("Skip AdGroup " +:+ adGroup_id (adGroup row)
            +:+ " - No positive keywords") ;;
          ret None
      | _ :: _ => ret (Some (join keywordList))
      end
  | OTHER_MODE v =>
      console_error ("Unknown mode: " +:+ v) ;;
      ret (Some "")
  end.

(** From the switch to the call of the Vision API: the prompt. *)
Definition build_imgPrompt (gAdsData : string) : M string :=
  imgPrompt <-
    match Adios_Mode CONFIG with
    | AD_GROUP => ret gAdsData
    | _ =>
        let promptContext := Text_Prompt_Context CONFIG in
        let textPrompt :=
          promptContext +:+ " " +:+ Text_Prompt CONFIG +:+ " " +:+ gAdsData in
        let textPrompt :=
          if truthy (Text_Prompt_Suffix CONFIG)
          then textPrompt +:+ " " +:+ Text_Prompt_Suffix CONFIG
          else textPrompt in
        Logger_log ("Prompt to generate Imagen Prompt: " +:+ textPrompt) ;;
        call (EvGemini textPrompt) (callGeminiApi api textPrompt)
    end ;;
  ret (if truthy (ImgGen_Prompt_Suffix CONFIG)
       then imgPrompt +:+ " " +:+ ImgGen_Prompt_Suffix CONFIG
       else imgPrompt).

Definition images_length (images : option (list string)) : Z :=
  match images with
  | Some l => Z.of_nat (length l)
  | None => 0
  end.

(** The [while (generatedImages < adGroupImgCount && numTries <=
    MAX_TRIES)] loop of [run].  One unit of fuel pays for one pass
    through the body. *)
Fixpoint generate_loop (fuel : nat) (row : AdGroupRow) (adGroupImgCount : Z)
    (generatedImages numTries : Z) : M unit :=
  if (generatedImages <? adGroupImgCount) && (numTries <=? MAX_TRIES) then
    match fuel with
    | O => fun _ => OutOfFuel
    | S fuel' =>
        let imgCount :=
          Z.min (VISION_API_LIMIT api) (adGroupImgCount - generatedImages) in
        gAdsData <- build_gAdsData row ;;
        match gAdsData with
        | None =>
            (* continue: back to the test of the while loop *)
            generate_loop fuel' row adGroupImgCount generatedImages numTries
        | Some gAdsData =>
            imgPrompt <- build_imgPrompt gAdsData ;;
            Logger_log ("Imagen Prompt for AdGroup "
              +:+ adGroup_name (adGroup row) +:+ ": " +:+ dquote +:+ imgPrompt +:+ dquote) ;;
            images <- call (EvVision imgPrompt imgCount)
                        (callVisionApi api imgPrompt imgCount) ;;
            Logger_log ("Received " +:+ Z_toString (images_length images)
              +:+ " images for " +:+ adGroup_name (adGroup row) +:+ "("
              +:+ adGroup_id (adGroup row) +:+ ")...") ;;
            match images with
            | None | Some [] =>
                generate_loop fuel' row adGroupImgCount generatedImages
                  (numTries + 1)
            | Some images =>
                upload_images row images ;;
                generate_loop fuel' row adGroupImgCount
                  (generatedImages + Z.of_nat (length images)) numTries
            end
        end
    end
  else ret tt.

(** The body of the [for] loop of [run] for the row [adGroups[i]]. *)
Definition process_adGroup (fuel : nat) (row : AdGroupRow) : M completion :=
  terminate <- shouldTerminate ;;
  if terminate then
    Logger_log ("The function is reaching the 6 minute timeout, and therfore will create a trigger to rerun from this ad group: "
      +:+ adGroup_name (adGroup row) +:+ " and then self terminate.") ;;
    setProperty cursorKey (adGroup_id (adGroup row)) ;;
    createTriggerForNextRun ;;
    ret Return
  else
    Logger_log ("Processing Ad Group " +:+ adGroup_name (adGroup row)
      +:+ " (" +:+ adGroup_id (adGroup row) +:+ ")...") ;;
    let dirs := [Generated_DIR CONFIG; Uploaded_DIR CONFIG; Validated_DIR CONFIG] in
    existingImgCount <-
      call (EvCountImages (customer_id (customer row)) (adGroup_id (adGroup row)) dirs)
        (countImages api (customer_id (customer row)) (adGroup_id (adGroup row)) dirs) ;;
    if existingImgCount >=? Number_of_images_per_Ad_Group CONFIG then
      Logger_log ("Ad Group " +:+ adGroup_name (adGroup row) +:+ "("
        +:+ adGroup_id (adGroup row) +:+ ") has enough generated images, skipping...") ;;
      (* continue: on to the next iteration of the for loop *)
      ret Normal
    else
      let adGroupImgCount := Number_of_images_per_Ad_Group CONFIG - existingImgCount in
      Logger_log ("Generating " +:+ Z_toString adGroupImgCount +:+ " images for "
        +:+ adGroup_name (adGroup row) +:+ "(" +:+ adGroup_id (adGroup row) +:+ ")...") ;;
      generate_loop fuel row adGroupImgCount 0 0 ;;
      setProperty cursorKey (adGroup_id (adGroup row)) ;;
      ret Normal.

(** [for (let i = ...; i < adGroups.length; i++)], entered at [i].
    [n] bounds the number of iterations; [run] passes
    [adGroups.length - startIndex], which is enough.  At an index
    outside the array [adGroup] is undefined, and the first
    [adGroup.adGroup] after the watchdog check throws. *)
Fixpoint for_loop (n : nat) (fuel : nat) (adGroups : list AdGroupRow) (i : Z)
  : M completion :=
  if i <? Z.of_nat (length adGroups) then
    match n with
    | O => fun _ => OutOfFuel
    | S n' =>
        match index_get adGroups i with
        | None =>
            shouldTerminate ;;
            throw (TypeError "Cannot read properties of undefined (reading 'adGroup')")
        | Some row =>
            c <- process_adGroup fuel row ;;
            match c with
            | Return => ret Return
            | Normal => for_loop n' fuel adGroups (i + 1)
            end
        end
    end
  else ret Normal.

(** Lines 49 to 55 of [run]: where the loop starts. *)
Definition startIndex (adGroups : list AdGroupRow)
    (lastImageGenerationProcessedAdGroupId : option string) : Z :=
  match lastImageGenerationProcessedAdGroupId with
  | Some last =>
      if truthy last then
        findIndex (fun row => String.eqb (adGroup_id (adGroup row)) last) adGroups
      else 0
  | None => 0
  end.

(** [run()].  The result tells how the method was left: [Return] by
    the [return] of the watchdog, [Normal] by its last statement. *)
Definition run (fuel : nat) : M completion :=
  deleteTrigger ;;
  adGroups <- call EvGetAdGroups (getAdGroups api) ;;
  lastImageGenerationProcessedAdGroupId <- getProperty cursorKey ;;
  let start := startIndex adGroups lastImageGenerationProcessedAdGroupId in
  c <- for_loop (Z.to_nat (Z.of_nat (length adGroups) - start)) fuel adGroups start ;;
  match c with
  | Return => ret Return
  | Normal =>
      Logger_log "Finished generating." ;;
      deleteProperty cursorKey ;;
      deleteTrigger ;;
      ret Normal
  end.

(** [static triggeredRun()] *)
Definition triggeredRun (fuel : nat) : M completion :=
  t <- now ;;
  setProperty startTimeKey (Z_toString t) ;;
  run fuel.

(** The statements of [static manuallyRun()] before [run()]. *)
Definition manuallyRun_prepare : M unit :=
  t <- now ;;
  setProperty startTimeKey (Z_toString t) ;;
  lastImageGenerationProcessedAdGroupId <- getProperty cursorKey ;;
  match lastImageGenerationProcessedAdGroupId with
  | Some last =>
      if truthy last then
        deleteProperty cursorKey ;;
        Logger_log "Cleared last processed Ad Group ID for a fresh manual run."
      else ret tt
  | None => ret tt
  end.

(** [static manuallyRun()] *)
Definition manuallyRun (fuel : nat) : M completion :=
  manuallyRun_prepare ;;
  run fuel.

End Service.

Arguments State : clear implicits.
Arguments outcome : clear implicits.
Arguments M : clear implicits.
Arguments Done {W A} _ _.
Arguments Throw {W A} _ _.
Arguments OutOfFuel {W A}.
Arguments mkState {W} _ _ _ _.
Arguments props {W} _.
Arguments triggers {W} _.
Arguments world {W} _.
Arguments trace {W} _.

(** ** Observations on states and traces *)

(** Calls to the image-generation API and uploads recorded in a trace. *)
Fixpoint generation_calls (evs : list Event) : nat :=
  match evs with
  | [] => O
  | EvVision _ _ :: evs' => S (generation_calls evs')
  | _ :: evs' => generation_calls evs'
  end.

Fixpoint uploads (evs : list Event) : nat :=
  match evs with
  | [] => O
  | EvUpload _ _ _ :: evs' => S (uploads evs')
  | _ :: evs' => uploads evs'
  end.

Section Observations.

Context {W R : Type}.
Variable api : Collaborators W R.
Variable CONFIG : Config.

(** The cursor as [run] and [manuallyRun] read it: the property is
    there and its value is truthy. *)
Definition persisted_cursor (st : State W) : option string :=
  match props st !! cursorKey with
  | Some last => if truthy last then Some last else None
  | None => None
  end.

(** What [shouldTerminate] answers in state [st]. *)
Definition watchdog_trips (st : State W) : bool :=
  match elapsed st (fst (Date_now api (world st))) with
  | Some d => MAX_EXECUTION_TIME api <? d
  | None => false
  end.

(** The number of images [run] finds for [row] when it processes it
    in state [st] (after the clock reading of the watchdog). *)
Definition existing_images (row : AdGroupRow) (st : State W) : Z :=
  fst (countImages api (customer_id (customer row)) (adGroup_id (adGroup row))
         [Generated_DIR CONFIG; Uploaded_DIR CONFIG; Validated_DIR CONFIG]
         (snd (Date_now api (world st)))).

(** The text of a generation request for [row] can be built: the
    configured regular expression compiles (AD_GROUP mode), the ad
    group has keywords (KEYWORDS mode). *)
Definition prompt_available (row : AdGroupRow) : Prop :=
  match Adios_Mode CONFIG with
  | AD_GROUP => is_Some (RegExp_new api (Ad_Group_Name_Regex CONFIG))
  | KEYWORDS =>
      forall w, fst (getKeywordsForAdGroup api (adGroup_id (adGroup row)) w) <> []
  | OTHER_MODE _ => True
  end.

(** The state in which [run], processing [row] from state [st] with
    the watchdog quiet and images lacking, first tests the condition
    of its [while] loop: after the clock reading of the watchdog, the
    count of the images and the two log lines. *)
Definition loop_start (row : AdGroupRow) (st : State W) : State W :=
  let dirs := [Generated_DIR CONFIG; Uploaded_DIR CONFIG; Validated_DIR CONFIG] in
  mkState (props st) (triggers st)
    (snd (countImages api (customer_id (customer row)) (adGroup_id (adGroup row)) dirs
            (snd (Date_now api (world st)))))
    (EvLog ("Generating "
            +:+ Z_toString (Number_of_images_per_Ad_Group CONFIG - existing_images row st)
            +:+ " images for " +:+ adGroup_name (adGroup row) +:+ "("
            +:+ adGroup_id (adGroup row) +:+ ")...")
     :: EvCountImages (customer_id (customer row)) (adGroup_id (adGroup row)) dirs
     :: EvLog ("Processing Ad Group " +:+ adGroup_name (adGroup row)
               +:+ " (" +:+ adGroup_id (adGroup row) +:+ ")...")
     :: trace st).

(** One pass through the body of the [while] loop of [run] for [row],
    from its first statement to the log line that follows the call of
    the Vision API (lines 99 to 180): the answer of the API, or [None]
    when the pass ends in the [continue] of the KEYWORDS case. *)
Definition attempt (row : AdGroupRow) (adGroupImgCount generatedImages : Z)
  : M W (option (option (list string))) :=
  let imgCount :=
    Z.min (VISION_API_LIMIT api) (adGroupImgCount - generatedImages) in
  bind (build_gAdsData api CONFIG row) (fun gAdsData =>
  match gAdsData with
  | None => ret None
  | Some gAdsData =>
      bind (build_imgPrompt api CONFIG gAdsData) (fun imgPrompt =>
      bind (Logger_log ("Imagen Prompt for AdGroup "
              +:+ adGroup_name (adGroup row) +:+ ": " +:+ dquote
              +:+ imgPrompt +:+ dquote)) (fun _ =>
      bind (call (EvVision imgPrompt imgCount)
              (callVisionApi api imgPrompt imgCount)) (fun images =>
      bind (Logger_log ("Received " +:+ Z_toString (images_length images)
              +:+ " images for " +:+ adGroup_name (adGroup row) +:+ "("
              +:+ adGroup_id (adGroup row) +:+ ")...")) (fun _ =>
      ret (Some images)))))
  end).

(** The next [k] passes for [row], the first of them made in state
    [st] and each of the others in the state its predecessor leaves,
    all reach the Vision API and all get no image from it.  Nothing is
    said of any other call of the API. *)
Fixpoint empty_attempts (k : nat) (row : AdGroupRow) (adGroupImgCount : Z)
    (st : State W) : Prop :=
  match k with
  | O => True
  | S k' =>
      exists images st1,
        attempt row adGroupImgCount 0 st = Done (Some images) st1 /\
        images_length images = 0 /\
        empty_attempts k' row adGroupImgCount st1
  end.

(** The state in which [run], called in [st], enters its loop, and the
    list it iterates over. *)
Definition loop_entry (st : State W) : list AdGroupRow * State W :=
  let (adGroups, w) := getAdGroups api (world st) in
  (adGroups, mkState (props st) O w (EvGetAdGroups :: EvDeleteTrigger :: trace st)).

(** The statements of [run] after its loop. *)
Definition run_finish (c : completion) : M W completion :=
  match c with
  | Return => ret Return
  | Normal =>
      bind (Logger_log "Finished generating.") (fun _ =>
      bind (deleteProperty cursorKey) (fun _ =>
      bind deleteTrigger (fun _ => ret Normal)))
  end.

(** [reaches fuel adGroups start st0 i st]: the loop entered at index
    [start] in state [st0] arrives at the top of iteration [i] in
    state [st], every earlier iteration having run to its end. *)
Inductive reaches (fuel : nat) (adGroups : list AdGroupRow) (start : Z)
    (st0 : State W) : Z -> State W -> Prop :=
| reaches_start : reaches fuel adGroups start st0 start st0
| reaches_next i st row st' :
    reaches fuel adGroups start st0 i st ->
    index_get adGroups i = Some row ->
    process_adGroup api CONFIG fuel row st = Done Normal st' ->
    reaches fuel adGroups start st0 (i + 1) st'.

(** [m] relates the state it starts in to the state it ends in. *)
Definition keeps {A} (Rel : State W -> State W -> Prop) (m : M W A) : Prop :=
  forall st a st', m st = Done a st' -> Rel st st'.

(** [m] relates the state it starts in to the state it leaves behind,
    whether it returns or throws. *)
Definition leaves {A} (Rel : State W -> State W -> Prop) (m : M W A) : Prop :=
  forall st,
    match m st with
    | Done _ st' => Rel st st'
    | Throw _ st' => Rel st st'
    | OutOfFuel => True
    end.

Definition same_triggers (st st' : State W) : Prop :=
  triggers st' = triggers st.

(** Nothing happened between [st] and [st'] but logging, reading and
    querying: same properties, same triggers, no generation call, no
    upload. *)
Definition quiet (st st' : State W) : Prop :=
  props st' = props st /\ triggers st' = triggers st /\
  generation_calls (trace st') = generation_calls (trace st) /\
  uploads (trace st') = uploads (trace st).

End Observations.

(** ** Prompt templates, as the documentation of [createPrompt] reads them *)

Inductive segment :=
| Text (s : string)
| Placeholder (name : string).

Definition render_segment (seg : segment) : string :=
  match seg with
  | Text s => s
  | Placeholder name => "${" +:+ name +:+ "}"
  end.

Definition render (template : list segment) : string :=
  foldr (fun seg s => render_segment seg +:+ s) "" template.

Fixpoint value_of (obj : list (string * string)) (name : string) : option string :=
  match obj with
  | [] => None
  | (key, value) :: obj' =>
      if String.eqb key name then Some value else value_of obj' name
  end.

(** Every placeholder whose name is a key becomes the value of that
    key; the other placeholders and the text stay as they are. *)
Definition substitute_segment (obj : list (string * string)) (seg : segment) : string :=
  match seg with
  | Text s => s
  | Placeholder name =>
      match value_of obj name with
      | Some value => value
      | None => render_segment seg
      end
  end.

(** One step of [createPrompt] seen on the template: the placeholders
    named [key] become the text [value]. *)
Definition fill_one (key value : string) (seg : segment) : segment :=
  match seg with
  | Text _ => seg
  | Placeholder name => if String.eqb name key then Text value else seg
  end.

Definition substitute (obj : list (string * string)) (template : list segment) : string :=
  foldr (fun seg s => substitute_segment obj seg +:+ s) "" template.

Fixpoint occurs (c : ascii) (s : string) : bool :=
  match s with
  | EmptyString => false
  | String d s' => Ascii.eqb c d || occurs c s'
  end.

(** A template whose text has no dollar sign and whose placeholder
    names have neither a dollar sign nor a closing brace. *)
Definition plain_segment (seg : segment) : bool :=
  match seg with
  | Text s => negb (occurs "$" s)
  | Placeholder name => negb (occurs "$" name) && negb (occurs "}" name)
  end.

Definition plain_template (template : list segment) : bool :=
  forallb plain_segment template.

(** Entries whose keys have no closing brace and whose values have no
    dollar sign. *)
Definition plain_entries (obj : list (string * string)) : bool :=
  forallb (fun '(key, value) => negb (occurs "}" key) && negb (occurs "$" value)) obj.

(** ** Prompt substitution, as the specification words it *)

(** Replace every occurrence of [pat] in [s], from left to right and
    without overlap, by the text [value] as it stands. *)
Fixpoint replace_every_scan (pat value s : string) (skip : nat) : string :=
  match s with
  | EmptyString => EmptyString
  | String c s' =>
      match skip with
      | S k => replace_every_scan pat value s' k
      | O =>
          if String.prefix pat s
          then value +:+ replace_every_scan pat value s' (String.length pat - 1)
          else String c (replace_every_scan pat value s' O)
      end
  end.

Definition replace_every (s pat value : string) : string :=
  replace_every_scan pat value s O.

(** The entries of the mapping applied one after the other, in the
    order of the mapping, each to the text the previous one left. *)
Definition inject_values (template : string) (obj : list (string * string)) : string :=
  fold_left
    (fun prompt '(key, value) => replace_every prompt ("${" +:+ key +:+ "}") value)
    obj template.

(** [value] holds one of the replacement patterns that
    [String.prototype.replaceAll] expands when no capture group is at
    hand: a dollar sign followed by a dollar sign, an ampersand, a
    backtick or a quote. *)
Fixpoint has_pattern (value : string) : bool :=
  match value with
  | EmptyString => false
  | String c rest =>
      (Ascii.eqb c "$" &&
       match rest with
       | String d _ =>
           Ascii.eqb d "$" || Ascii.eqb d "&" || Ascii.eqb d "`" || Ascii.eqb d "'"
       | EmptyString => false
       end)
      || has_pattern rest
  end.

(** ** Further observations *)

(** [s.includes(pat)]: [pat] occurs somewhere in [s]. *)
Fixpoint contains (pat s : string) : bool :=
  String.prefix pat s ||
  match s with
  | EmptyString => false
  | String _ s' => contains pat s'
  end.

(** Calls to the Gemini API and keyword queries recorded in a trace. *)
Fixpoint gemini_calls (evs : list Event) : nat :=
  match evs with
  | [] => O
  | EvGemini _ :: evs' => S (gemini_calls evs')
  | _ :: evs' => gemini_calls evs'
  end.

Fixpoint keyword_fetches (evs : list Event) : nat :=
  match evs with
  | [] => O
  | EvGetKeywords _ :: evs' => S (keyword_fetches evs')
  | _ :: evs' => keyword_fetches evs'
  end.

(** The batch sizes asked of the Vision API, newest first. *)
Fixpoint vision_sizes (evs : list Event) : list Z :=
  match evs with
  | [] => []
  | EvVision _ imgCount :: evs' => imgCount :: vision_sizes evs'
  | _ :: evs' => vision_sizes evs'
  end.

(** The prompts sent to the Vision API, newest first. *)
Fixpoint vision_prompts (evs : list Event) : list string :=
  match evs with
  | [] => []
  | EvVision imgPrompt _ :: evs' => imgPrompt :: vision_prompts evs'
  | _ :: evs' => vision_prompts evs'
  end.

(** The texts of a list without their repetitions: the head stays and
    is struck from what the rest of the list gives, so that of equal
    texts the first one is kept, at its place. *)
Fixpoint first_occurrences (l : list string) : list string :=
  match l with
  | [] => []
  | x :: l' => x :: filter (fun y => y <> x) (first_occurrences l')
  end.

(** The uploaded images with their folders, newest first. *)
Fixpoint uploaded (evs : list Event) : list (string * string) :=
  match evs with
  | [] => []
  | EvUpload image _ folder :: evs' => (image, folder) :: uploaded evs'
  | _ :: evs' => uploaded evs'
  end.

(** The folder [run] uploads the images of [row] to. *)
Definition generated_folder (CONFIG : Config) (row : AdGroupRow) : string :=
  customer_id (customer row) +:+ "/" +:+ adGroup_id (adGroup row)
    +:+ "/" +:+ Generated_DIR CONFIG.

(** Every script property but the cursor is the same in both states. *)
Definition same_other_props {W : Type} (st st' : State W) : Prop :=
  forall key, key <> cursorKey -> props st' !! key = props st !! key.

(** No call to Gemini and no keyword query between the two states. *)
Definition no_text_calls {W : Type} (st st' : State W) : Prop :=
  gemini_calls (trace st') = gemini_calls (trace st) /\
  keyword_fetches (trace st') = keyword_fetches (trace st).

(** If no batch recorded in [st] exceeds [limit], none in [st'] does. *)
Definition batches_within {W : Type} (limit : Z) (st st' : State W) : Prop :=
  Forall (fun imgCount => imgCount <= limit) (vision_sizes (trace st)) ->
  Forall (fun imgCount => imgCount <= limit) (vision_sizes (trace st')).

(** No call to the Vision API or to Gemini, no keyword query and no
    upload between the two states. *)
Definition idle {W : Type} (st st' : State W) : Prop :=
  generation_calls (trace st') = generation_calls (trace st) /\
  uploads (trace st') = uploads (trace st) /\
  gemini_calls (trace st') = gemini_calls (trace st) /\
  keyword_fetches (trace st') = keyword_fetches (trace st).

(** The persisted cursor, if there is one, is the identifier of an ad
    group that [getAdGroups] returns in state [st]. *)
Definition cursor_known {W R : Type} (api : Collaborators W R) (st : State W) : Prop :=
  match persisted_cursor st with
  | None => True
  | Some last =>
      exists row,
        row ∈ fst (getAdGroups api (world st)) /\ adGroup_id (adGroup row) = last
  end.

(** ** Concrete collaborators

    A family of small deterministic worlds used to run the service:
    the world is the clock, which advances by [sc_tick] at every
    reading; the other collaborators answer from fixed tables. *)

Record Scenario := {
  sc_adGroups : list AdGroupRow;
  sc_keywords : string -> list string;
  sc_count : string -> Z;
  sc_vision : Z -> option (list string);
  sc_groups : string -> option (option (list (string * string)));
  sc_tick : Z;
  sc_budget : Z
}.

Definition scenario_api (sc : Scenario) : Collaborators Z string := {|
  getAdGroups w := (sc_adGroups sc, w);
  getKeywordsForAdGroup adGroupId w := (sc_keywords sc adGroupId, w);
  countImages _ adGroupId _ w := (sc_count sc adGroupId, w);
  uploadImage _ _ _ w := w;
  VISION_API_LIMIT := 4;
  callVisionApi _ imgCount w := (sc_vision sc imgCount, w);
  callGeminiApi textPrompt w := ("imagen: " +:+ textPrompt, w);
  Date_now w := (w, w + sc_tick sc);
  RegExp_new source := Some source;
  RegExp_toString source := "/" +:+ source +:+ "/";
  String_match str _ := sc_groups sc str;
  MAX_EXECUTION_TIME := sc_budget sc
|}.

Definition row (customerId adGroupId adGroupName : string) : AdGroupRow :=
  {| customer := {| customer_id := customerId |};
     adGroup := {| adGroup_id := adGroupId; adGroup_name := adGroupName |} |}.

Definition config (mode : ADIOS_MODES) (target : Z) (template : string) : Config := {|
  Generated_DIR := "generated";
  Uploaded_DIR := "uploaded";
  Validated_DIR := "validated";
  Number_of_images_per_Ad_Group := target;
  Adios_Mode := mode;
  Ad_Group_Name_Regex := "^(?<city>\w+) Ad$";
  ImgGen_Prompt := template;
  ImgGen_Prompt_Suffix := "";
  Text_Prompt_Context := "You write prompts.";
  Text_Prompt := "Keywords:";
  Text_Prompt_Suffix := ""
|}.

(** A state at clock reading [clock] with the given script properties,
    no pending trigger and an empty trace. *)
Definition state_at (clock : Z) (properties : list (string * string)) : State Z :=
  mkState (list_to_map properties) O clock [].

Definition city_groups (str : string) : option (option (list (string * string))) :=
  if String.eqb str "Shoes Ad" then Some (Some [("city", "Shoes")])
  else if String.eqb str "Hats Ad" then Some (Some [("city", "Hats")])
  else None.

(** Two ad groups without images; every call of the Vision API returns
    [images]; the clock advances by [tick] per reading and the watchdog
    trips after five minutes. *)
Definition shop (images : option (list string)) (existing tick : Z) : Scenario := {|
  sc_adGroups := [row "7" "1" "Shoes Ad"; row "7" "2" "Hats Ad"];
  sc_keywords _ := [];
  sc_count _ := existing;
  sc_vision _ := images;
  sc_groups := city_groups;
  sc_tick := tick;
  sc_budget := 300000
|}.

(** An ad group name of [n] times the character [c]. *)
Fixpoint repeat_char (c : ascii) (n : nat) : string :=
  match n with
  | O => EmptyString
  | S n' => String c (repeat_char c n')
  end.

(** Two ad groups with [existing] images each and a Vision API that
    returns exactly as many images as it is asked for. *)
Definition honest_shop (existing : Z) : Scenario := {|
  sc_adGroups := [row "7" "1" "Shoes Ad"; row "7" "2" "Hats Ad"];
  sc_keywords _ := [];
  sc_count _ := existing;
  sc_vision imgCount := Some (replicate (Z.to_nat imgCount) "aW1n");
  sc_groups := city_groups;
  sc_tick := 1;
  sc_budget := 300000
|}.

(** The end-to-end example: two images per ad group, two per call. *)
Definition shoes_and_hats : Scenario := shop (Some ["aW1n"; "aW1n"]) 0 1.

Definition city_prompt : Config := config AD_GROUP 2 "A photo of a ${city}".

(** A run started at noon of some day, with this start persisted. *)
Definition started (properties : list (string * string)) : State Z :=
  state_at 1700000000000 ((startTimeKey, "1700000000000") :: properties).

(** The shop of the end-to-end example with a Vision API that has
    nothing for the prompt of the first ad group and two images for
    every other prompt. *)
Definition no_shoes_api : Collaborators Z string := {|
  getAdGroups := getAdGroups (scenario_api shoes_and_hats);
  getKeywordsForAdGroup := getKeywordsForAdGroup (scenario_api shoes_and_hats);
  countImages := countImages (scenario_api shoes_and_hats);
  uploadImage := uploadImage (scenario_api shoes_and_hats);
  VISION_API_LIMIT := 4;
  callVisionApi imgPrompt _ w :=
    (if String.eqb imgPrompt "A photo of a Shoes" then Some []
     else Some ["aW1n"; "aW1n"], w);
  callGeminiApi := callGeminiApi (scenario_api shoes_and_hats);
  Date_now := Date_now (scenario_api shoes_and_hats);
  RegExp_new := RegExp_new (scenario_api shoes_and_hats);
  RegExp_toString := RegExp_toString (scenario_api shoes_and_hats);
  String_match := String_match (scenario_api shoes_and_hats);
  MAX_EXECUTION_TIME := MAX_EXECUTION_TIME (scenario_api shoes_and_hats)
|}.

(** An ad group named after an offer, and the configuration that
    takes the offer from the name into the prompt. *)
Definition offer_shop : Scenario := {|
  sc_adGroups := [row "7" "1" "Big $$ Sale Ad"];
  sc_keywords _ := [];
  sc_count _ := 0;
  sc_vision _ := Some ["aW1n"; "aW1n"];
  sc_groups str :=
    if String.eqb str "Big $$ Sale Ad" then Some (Some [("offer", "Big $$ Sale")])
    else None;
  sc_tick := 1;
  sc_budget := 300000
|}.

Definition offer_prompt : Config := {|
  Generated_DIR := "generated";
  Uploaded_DIR := "uploaded";
  Validated_DIR := "validated";
  Number_of_images_per_Ad_Group := 2;
  Adios_Mode := AD_GROUP;
  Ad_Group_Name_Regex := "^(?<offer>.+) Ad$";
  ImgGen_Prompt := "A poster for ${offer}";
  ImgGen_Prompt_Suffix := "";
  Text_Prompt_Context := "";
  Text_Prompt := "";
  Text_Prompt_Suffix := ""
|}.

(** An ad group whose keywords repeat a text. *)
Definition colour_shop : Scenario := {|
  sc_adGroups := [row "7" "1" "Shoes Ad"];
  sc_keywords _ := ["red"; "blue"; "red"];
  sc_count _ := 0;
  sc_vision _ := Some ["aW1n"; "aW1n"];
  sc_groups := city_groups;
  sc_tick := 1;
  sc_budget := 300000
|}.

(** * Properties *)

(** ** Array helpers *)

Lemma findIndex_from_none {A} (p : A -> bool) (l : list A) (k : Z) :
  (forall x, x ∈ l -> p x = false) -> findIndex_from p l k = -1.
Proof.
  revert k. induction l as [|x l IH]; intros k Hall; simpl.
  - reflexivity.
  - rewrite (Hall x) by apply list_elem_of_here.
    apply IH. intros y Hy. apply Hall. by apply list_elem_of_further.
Qed.

Lemma findIndex_from_first {A} (p : A -> bool) (l : list A) (k : Z) :
  (exists x, x ∈ l /\ p x = true) ->
  exists (j : nat) (x : A),
    findIndex_from p l k = k + Z.of_nat j /\ l !! j = Some x /\ p x = true /\
    forall (j' : nat) (y : A), (j' < j)%nat -> l !! j' = Some y -> p y = false.
Proof.
  revert k. induction l as [|x l IH]; intros k [y [Hy Hp]].
  - by apply elem_of_nil in Hy.
  - simpl. destruct (p x) eqn:Hx.
    + exists O, x. repeat split; [lia | done | lia].
    + apply elem_of_cons in Hy as [-> | Hy]; [congruence |].
      destruct (IH (k + 1) (ex_intro _ y (conj Hy Hp))) as (j & z & Hj & Hz & Hpz & Hmin).
      exists (S j), z. repeat split; [lia | done | done |].
      intros [|j'] y' Hlt Hy'; simpl in Hy'.
      * congruence.
      * apply (Hmin j'); [lia | done].
Qed.

Lemma index_get_nat {A} (l : list A) (j : nat) :
  index_get l (Z.of_nat j) = l !! j.
Proof.
  unfold index_get. destruct (Z.ltb_spec (Z.of_nat j) 0); [lia |].
  by rewrite Nat2Z.id.
Qed.

Lemma index_get_Some {A} (l : list A) (i : Z) (x : A) :
  index_get l i = Some x -> 0 <= i < Z.of_nat (length l).
Proof.
  unfold index_get. destruct (Z.ltb_spec i 0); [done |].
  intros Hl%lookup_lt_Some. lia.
Qed.

(** ** String helpers *)

Lemma append_cons (c : ascii) (s t : string) :
  String c s +:+ t = String c (s +:+ t).
Proof. reflexivity. Qed.

Lemma append_nil_l (s : string) : "" +:+ s = s.
Proof. reflexivity. Qed.

Lemma append_nil_r (s : string) : s +:+ "" = s.
Proof. induction s as [|c s IH]; [done |]. by rewrite append_cons, IH. Qed.

Lemma append_assoc (s t u : string) : (s +:+ t) +:+ u = s +:+ (t +:+ u).
Proof. induction s as [|c s IH]; [done |]. by rewrite !append_cons, IH. Qed.

Lemma length_append (s t : string) :
  String.length (s +:+ t) = (String.length s + String.length t)%nat.
Proof. induction s as [|c s IH]; [done |]. rewrite append_cons. simpl. by rewrite IH. Qed.

Lemma occurs_cons (c d : ascii) (s : string) :
  occurs c (String d s) = Ascii.eqb c d || occurs c s.
Proof. reflexivity. Qed.

Lemma occurs_cons_false (c d : ascii) (s : string) :
  occurs c (String d s) = false -> Ascii.eqb c d = false /\ occurs c s = false.
Proof. rewrite occurs_cons. apply orb_false_iff. Qed.

Lemma occurs_append (c : ascii) (s t : string) :
  occurs c (s +:+ t) = occurs c s || occurs c t.
Proof.
  induction s as [|d s IH]; [done |].
  rewrite append_cons, !occurs_cons, IH. by destruct (Ascii.eqb c d).
Qed.

Lemma prefix_cons (c d : ascii) (p s : string) :
  String.prefix (String c p) (String d s) = Ascii.eqb c d && String.prefix p s.
Proof.
  simpl. destruct (ascii_dec c d) as [-> | Hne].
  - by rewrite Ascii.eqb_refl.
  - apply Ascii.eqb_neq in Hne. by rewrite Hne.
Qed.

Lemma prefix_nil (s : string) : String.prefix "" s = true.
Proof. by destruct s. Qed.

Lemma prefix_append (p rest : string) : String.prefix p (p +:+ rest) = true.
Proof.
  induction p as [|c p IH]; [apply prefix_nil |].
  by rewrite append_cons, prefix_cons, Ascii.eqb_refl.
Qed.

(** A name is delimited by the first closing brace. *)
Lemma prefix_name (k n rest : string) :
  occurs "}" k = false -> occurs "}" n = false ->
  String.prefix (k +:+ "}") (n +:+ "}" +:+ rest) = true -> k = n.
Proof.
  revert n. induction k as [|c k IH]; intros [|d n] Hk Hn.
  - done.
  - rewrite append_nil_l, append_cons, prefix_cons.
    apply occurs_cons_false in Hn as [-> _]. done.
  - rewrite append_nil_l, !append_cons, prefix_cons.
    apply occurs_cons_false in Hk as [Hc _].
    rewrite Ascii.eqb_sym, Hc. done.
  - rewrite !append_cons, prefix_cons.
    apply occurs_cons_false in Hk as [_ Hk]. apply occurs_cons_false in Hn as [_ Hn].
    intros [->%Ascii.eqb_eq Hp]%andb_true_iff. f_equal. by apply IH.
Qed.

(** ** [replaceAll] *)

Lemma GetSubstitution_plain (matched before after repl : string) :
  occurs "$" repl = false -> GetSubstitution matched before after repl = repl.
Proof.
  induction repl as [|c repl IH]; [done |].
  intros [Hc Hr]%occurs_cons_false.
  change (GetSubstitution matched before after (String c repl))
    with (if Ascii.eqb c "$"
          then match repl with
               | String d repl'' =>
                   if Ascii.eqb d "$" then
                     String "$" (GetSubstitution matched before after repl'')
                   else if Ascii.eqb d "&" then
                     matched +:+ GetSubstitution matched before after repl''
                   else if Ascii.eqb d "`" then
                     before +:+ GetSubstitution matched before after repl''
                   else if Ascii.eqb d "'" then
                     after +:+ GetSubstitution matched before after repl''
                   else String c (GetSubstitution matched before after repl)
               | EmptyString => String c EmptyString
               end
          else String c (GetSubstitution matched before after repl)).
  rewrite Ascii.eqb_sym, Hc. f_equal. by apply IH.
Qed.

Lemma replaceAll_scan_cons (pat repl before : string) (c : ascii) (s : string)
    (skip : nat) :
  replaceAll_scan pat repl before (String c s) skip =
  match skip with
  | S k => replaceAll_scan pat repl (before +:+ String c "") s k
  | O =>
      if String.prefix pat (String c s) then
        GetSubstitution pat before
          (String.substring (String.length pat)
             (String.length (String c s) - String.length pat) (String c s)) repl
          +:+ replaceAll_scan pat repl (before +:+ String c "") s (String.length pat - 1)
      else String c (replaceAll_scan pat repl (before +:+ String c "") s O)
  end.
Proof. reflexivity. Qed.

Section ReplaceAll.

(** The pattern starts with a dollar sign and the replacement has
    none: this is [${key}] against a plain value. *)
Variables (pat' repl : string).
Hypothesis repl_plain : occurs "$" repl = false.

Lemma scan_before (b1 b2 s : string) (skip : nat) :
  replaceAll_scan (String "$" pat') repl b1 s skip = replaceAll_scan (String "$" pat') repl b2 s skip.
Proof.
  revert b1 b2 skip. induction s as [|c s IH]; intros b1 b2 skip; [done |].
  rewrite !replaceAll_scan_cons. destruct skip as [|k]; [| apply IH].
  rewrite !GetSubstitution_plain by done.
  rewrite (IH (b1 +:+ String c "") (b2 +:+ String c "") 0%nat).
  by rewrite (IH (b1 +:+ String c "") (b2 +:+ String c "") (String.length (String "$" pat') - 1)%nat).
Qed.

Lemma scan_skip (x rest before : string) :
  replaceAll_scan (String "$" pat') repl before (x +:+ rest) (String.length x)
  = replaceAll_scan (String "$" pat') repl "" rest 0.
Proof.
  revert before. induction x as [|c x IH]; intros before.
  - apply scan_before.
  - rewrite append_cons, replaceAll_scan_cons. apply IH.
Qed.

Lemma scan_text (t rest before : string) :
  occurs "$" t = false ->
  replaceAll_scan (String "$" pat') repl before (t +:+ rest) 0
  = t +:+ replaceAll_scan (String "$" pat') repl "" rest 0.
Proof.
  revert before. induction t as [|c t IH]; intros before Ht.
  - apply scan_before.
  - apply occurs_cons_false in Ht as [Hc Ht].
    rewrite !append_cons, replaceAll_scan_cons.
    rewrite prefix_cons, Hc. cbn [andb].
    f_equal. by apply IH.
Qed.

Lemma scan_match (rest before : string) :
  replaceAll_scan (String "$" pat') repl before (String "$" pat' +:+ rest) 0
  = repl +:+ replaceAll_scan (String "$" pat') repl "" rest 0.
Proof.
  rewrite append_cons, replaceAll_scan_cons.
  rewrite prefix_cons, Ascii.eqb_refl, prefix_append. cbn [andb].
  rewrite GetSubstitution_plain by done. f_equal.
  replace (String.length (String "$" pat') - 1)%nat with (String.length pat')
    by (cbn [String.length]; lia).
  apply scan_skip.
Qed.

Lemma scan_no_match (t rest before : string) :
  String.prefix pat' (t +:+ rest) = false ->
  occurs "$" t = false ->
  replaceAll_scan (String "$" pat') repl before (String "$" (t +:+ rest)) 0
  = String "$" (t +:+ replaceAll_scan (String "$" pat') repl "" rest 0).
Proof.
  intros Hp Ht. rewrite replaceAll_scan_cons.
  rewrite prefix_cons, Hp, andb_false_r.
  f_equal. by apply scan_text.
Qed.

End ReplaceAll.

(** ** [createPrompt] on plain templates *)

Lemma render_cons (seg : segment) (template : list segment) :
  render (seg :: template) = render_segment seg +:+ render template.
Proof. reflexivity. Qed.

Lemma placeholder_cons (name rest : string) :
  render_segment (Placeholder name) +:+ rest
  = String "$" (String "{" (name +:+ "}") +:+ rest).
Proof. reflexivity. Qed.

Lemma replaceAll_render (key value : string) (template : list segment) :
  plain_template template = true ->
  occurs "}" key = false ->
  occurs "$" value = false ->
  replaceAll (render template) ("${" +:+ key +:+ "}") value
  = render (map (fill_one key value) template).
Proof.
  intros Htpl Hkey Hvalue. unfold replaceAll.
  change ("${" +:+ key +:+ "}") with (String "$" (String "{" (key +:+ "}"))).
  induction template as [|seg template IH]; [done |].
  apply andb_true_iff in Htpl as [Hseg Htpl]. specialize (IH Htpl).
  rewrite map_cons, !render_cons.
  destruct seg as [t | name]; simpl in Hseg.
  - apply negb_true_iff in Hseg.
    rewrite scan_text by done. cbn [fill_one render_segment]. by rewrite IH.
  - apply andb_true_iff in Hseg as [Hd%negb_true_iff Hb%negb_true_iff].
    unfold fill_one. destruct (String.eqb_spec name key) as [-> | Hne].
    + change (render_segment (Placeholder key) +:+ render template)
        with (String "$" (String "{" (key +:+ "}")) +:+ render template).
      rewrite scan_match by done. cbn [render_segment]. by rewrite IH.
    + rewrite placeholder_cons, scan_no_match; [| done | |].
      * rewrite IH. reflexivity.
      * rewrite append_cons, prefix_cons, append_assoc. cbn [Ascii.eqb]. 
        destruct (String.prefix (key +:+ "}") (name +:+ "}" +:+ render template)) eqn:Hp;
          [| done].
        apply prefix_name in Hp; [congruence | done | done].
      * rewrite occurs_cons, occurs_append, Hd. reflexivity.
Qed.

Lemma fill_one_plain (key value : string) (template : list segment) :
  plain_template template = true ->
  occurs "$" value = false ->
  plain_template (map (fill_one key value) template) = true.
Proof.
  intros Htpl Hvalue. induction template as [|seg template IH]; [done |].
  apply andb_true_iff in Htpl as [Hseg Htpl].
  rewrite map_cons. apply andb_true_iff. split; [| by apply IH].
  destruct seg as [t | name]; [done |].
  unfold fill_one. destruct (String.eqb name key); [| done].
  simpl. by rewrite Hvalue.
Qed.

Lemma substitute_fill_one (key value : string) (obj : list (string * string))
    (template : list segment) :
  substitute obj (map (fill_one key value) template)
  = substitute ((key, value) :: obj) template.
Proof.
  induction template as [|seg template IH]; [done |].
  rewrite map_cons. unfold substitute in *. cbn [foldr]. rewrite IH. f_equal.
  destruct seg as [t | name]; [done |].
  unfold fill_one, substitute_segment at 2, value_of. fold value_of.
  rewrite (String.eqb_sym key name). by destruct (String.eqb name key).
Qed.

Lemma substitute_nil (template : list segment) :
  substitute [] template = render template.
Proof.
  induction template as [|seg template IH]; [done |].
  unfold substitute, render in *. cbn [foldr]. rewrite IH. by destruct seg.
Qed.

Lemma fold_replaceAll_render (obj : list (string * string)) (template : list segment) :
  plain_template template = true ->
  plain_entries obj = true ->
  fold_left
    (fun prompt '(key, value) => replaceAll prompt ("${" +:+ key +:+ "}") value)
    obj (render template)
  = substitute obj template.
Proof.
  revert template. induction obj as [|[key value] obj IH]; intros template Htpl Hobj.
  - symmetry. apply substitute_nil.
  - apply andb_true_iff in Hobj as [Hkv Hobj].
    apply andb_true_iff in Hkv as [Hkey%negb_true_iff Hvalue%negb_true_iff].
    cbn [fold_left]. rewrite replaceAll_render by done.
    rewrite IH; [apply substitute_fill_one | by apply fill_one_plain | done].
Qed.

Section Properties.

Context {W R : Type}.
Variable api : Collaborators W R.
Variable CONFIG : Config.

(** ** The watchdog and the entry of the loop *)

Lemma shouldTerminate_eq (st : State W) :
  shouldTerminate api st =
  Done (watchdog_trips api st)
    (mkState (props st) (triggers st) (snd (Date_now api (world st))) (trace st)).
Proof.
  unfold shouldTerminate, bind, now, watchdog_trips, elapsed.
  destruct (Date_now api (world st)) as [t w]; simpl.
  by destruct (props st !! startTimeKey ≫= Z_ofString).
Qed.

Lemma run_enters (fuel : nat) (st : State W) :
  run api CONFIG fuel st =
  let (adGroups, st0) := loop_entry api st in
  let start := startIndex adGroups (props st !! cursorKey) in
  bind (for_loop api CONFIG (Z.to_nat (Z.of_nat (length adGroups) - start))
          fuel adGroups start)
    run_finish st0.
Proof.
  unfold run, loop_entry, bind at 1 2 3, deleteTrigger, call, getProperty; simpl.
  destruct (getAdGroups api (world st)) as [adGroups w]; simpl.
  unfold bind. destruct (for_loop _ _ _ _ _ _ _) as [[|] st1| |]; reflexivity.
Qed.

Lemma for_loop_unfold (n fuel : nat) (adGroups : list AdGroupRow) (i : Z) :
  for_loop api CONFIG n fuel adGroups i =
  if i <? Z.of_nat (length adGroups) then
    match n with
    | O => fun _ => OutOfFuel
    | S n' =>
        match index_get adGroups i with
        | None =>
            bind (shouldTerminate api) (fun _ =>
              throw (TypeError "Cannot read properties of undefined (reading 'adGroup')"))
        | Some row =>
            bind (process_adGroup api CONFIG fuel row) (fun c =>
              match c with
              | Return => ret Return
              | Normal => for_loop api CONFIG n' fuel adGroups (i + 1)
              end)
        end
    end
  else ret Normal.
Proof. destruct n; reflexivity. Qed.

Lemma generate_loop_unfold (fuel : nat) (row : AdGroupRow) (adGroupImgCount g t : Z) :
  generate_loop api CONFIG fuel row adGroupImgCount g t =
  if (g <? adGroupImgCount) && (t <=? MAX_TRIES) then
    match fuel with
    | O => fun _ => OutOfFuel
    | S fuel' =>
        let imgCount := Z.min (VISION_API_LIMIT api) (adGroupImgCount - g) in
        bind (build_gAdsData api CONFIG row) (fun gAdsData =>
          match gAdsData with
          | None => generate_loop api CONFIG fuel' row adGroupImgCount g t
          | Some gAdsData =>
              bind (build_imgPrompt api CONFIG gAdsData) (fun imgPrompt =>
              bind (Logger_log ("Imagen Prompt for AdGroup "
                      +:+ adGroup_name (adGroup row) +:+ ": " +:+ dquote
                      +:+ imgPrompt +:+ dquote)) (fun _ =>
              bind (call (EvVision imgPrompt imgCount)
                      (callVisionApi api imgPrompt imgCount)) (fun images =>
              bind (Logger_log ("Received " +:+ Z_toString (images_length images)
                      +:+ " images for " +:+ adGroup_name (adGroup row) +:+ "("
                      +:+ adGroup_id (adGroup row) +:+ ")...")) (fun _ =>
              match images with
              | None | Some [] =>
                  generate_loop api CONFIG fuel' row adGroupImgCount g (t + 1)
              | Some images =>
                  bind (upload_images api CONFIG row images) (fun _ =>
                    generate_loop api CONFIG fuel' row adGroupImgCount
                      (g + Z.of_nat (length images)) t)
              end))))
          end)
    end
  else ret tt.
Proof. destruct fuel; reflexivity. Qed.

(** ** What the steps of an iteration leave alone *)

Section Keeps.

Variable Rel : State W -> State W -> Prop.
Hypothesis Rel_refl : forall st, Rel st st.
Hypothesis Rel_trans : forall st1 st2 st3, Rel st1 st2 -> Rel st2 st3 -> Rel st1 st3.

Lemma keeps_ret {A} (a : A) : keeps Rel (ret a).
Proof. intros st b st' [= _ <-]. apply Rel_refl. Qed.

Lemma keeps_throw {A} (e : JsError) : keeps Rel (@throw W A e).
Proof. intros st b st' [=]. Qed.

Lemma keeps_bind {A B} (m : M W A) (k : A -> M W B) :
  keeps Rel m -> (forall a, keeps Rel (k a)) -> keeps Rel (bind m k).
Proof.
  intros Hm Hk st b st'. unfold bind.
  destruct (m st) as [a st1| |] eqn:E; [| done | done].
  intros Hb. eapply Rel_trans; [by eapply Hm | by eapply Hk].
Qed.

End Keeps.

Lemma same_triggers_refl (st : State W) : same_triggers st st.
Proof. reflexivity. Qed.

Lemma same_triggers_trans (st1 st2 st3 : State W) :
  same_triggers st1 st2 -> same_triggers st2 st3 -> same_triggers st1 st3.
Proof. unfold same_triggers. congruence. Qed.

Lemma quiet_refl (st : State W) : quiet st st.
Proof. by repeat split. Qed.

Lemma quiet_trans (st1 st2 st3 : State W) :
  quiet st1 st2 -> quiet st2 st3 -> quiet st1 st3.
Proof. unfold quiet. intros (? & ? & ? & ?) (? & ? & ? & ?). repeat split; congruence. Qed.

(** A primitive step: run it and read the relation off the result. *)
Ltac prim_keeps :=
  let st := fresh "st" in
  let H := fresh "H" in
  intros st ? ? H;
  unfold now, emit, call, Logger_log, console_error, getProperty,
    setProperty, deleteProperty in H;
  repeat match type of H with
    | context [let (_, _) := ?x in _] => destruct x
    end;
  injection H as <- <-;
  unfold same_triggers, quiet; simpl; auto.

(** A composite step: follow its structure. *)
Ltac solve_keeps :=
  repeat match goal with
    | |- keeps _ (bind _ _) =>
        apply keeps_bind;
        [ first [exact same_triggers_trans | exact quiet_trans] | | intros ? ]
    | |- keeps _ (ret _) =>
        apply keeps_ret; first [exact same_triggers_refl | exact quiet_refl]
    | |- keeps _ (throw _) => apply keeps_throw
    | |- keeps _ (match ?x with _ => _ end) => destruct x
    | H : forall _, keeps _ _ |- keeps _ _ => apply H
    | |- keeps _ _ => solve [prim_keeps]
    end.

Lemma generateImageFileName_triggers (adGroupId adGroupName : string) :
  keeps same_triggers (generateImageFileName api adGroupId adGroupName).
Proof. unfold generateImageFileName. solve_keeps. Qed.

Lemma upload_images_triggers (row : AdGroupRow) (images : list string) :
  keeps same_triggers (upload_images api CONFIG row images).
Proof.
  induction images as [|image rest IH]; simpl; solve_keeps.
  - apply generateImageFileName_triggers.
  - exact IH.
Qed.

Lemma build_gAdsData_triggers (row : AdGroupRow) :
  keeps same_triggers (build_gAdsData api CONFIG row).
Proof. unfold build_gAdsData. solve_keeps. Qed.

Lemma build_gAdsData_quiet (row : AdGroupRow) :
  keeps quiet (build_gAdsData api CONFIG row).
Proof. unfold build_gAdsData. solve_keeps. Qed.

Lemma build_imgPrompt_triggers (gAdsData : string) :
  keeps same_triggers (build_imgPrompt api CONFIG gAdsData).
Proof. unfold build_imgPrompt. solve_keeps. Qed.

Lemma build_imgPrompt_quiet (gAdsData : string) :
  keeps quiet (build_imgPrompt api CONFIG gAdsData).
Proof. unfold build_imgPrompt. solve_keeps. Qed.

Lemma generate_loop_triggers (fuel : nat) (row : AdGroupRow) (adGroupImgCount : Z) :
  forall g t, keeps same_triggers (generate_loop api CONFIG fuel row adGroupImgCount g t).
Proof.
  induction fuel as [|fuel IH]; intros g t; rewrite generate_loop_unfold.
  - destruct (_ && _); [intros st a st' [=] | solve_keeps].
  - destruct (_ && _); [| solve_keeps]. cbv zeta.
    apply keeps_bind; [exact same_triggers_trans | apply build_gAdsData_triggers |].
    intros [gAdsData|]; [| apply IH].
    apply keeps_bind; [exact same_triggers_trans | apply build_imgPrompt_triggers |].
    intros imgPrompt. solve_keeps; try apply IH.
    apply upload_images_triggers.
Qed.

Lemma process_adGroup_triggers (fuel : nat) (row : AdGroupRow) (st st' : State W) :
  process_adGroup api CONFIG fuel row st = Done Normal st' ->
  triggers st' = triggers st.
Proof.
  unfold process_adGroup, bind at 1. rewrite shouldTerminate_eq.
  destruct (watchdog_trips api st).
  - unfold bind, Logger_log, emit, setProperty, createTriggerForNextRun, ret. intros [=].
  - intros H.
    match type of H with ?m ?s = _ =>
      assert (keeps same_triggers m) as Hk
    end.
    { solve_keeps. apply generate_loop_triggers. }
    apply Hk in H. exact H.
Qed.

(** ** Following the loop of [run] *)

Lemma reaches_triggers fuel adGroups start st0 i st :
  reaches api CONFIG fuel adGroups start st0 i st -> triggers st = triggers st0.
Proof.
  induction 1 as [|i st row st' _ IH _ Hp]; [reflexivity |].
  apply process_adGroup_triggers in Hp. congruence.
Qed.

Lemma reaches_for_loop fuel adGroups start st0 i st (n : nat) :
  reaches api CONFIG fuel adGroups start st0 i st ->
  Z.of_nat (length adGroups) - start <= Z.of_nat n ->
  exists n' : nat,
    Z.of_nat (length adGroups) - i <= Z.of_nat n' /\
    for_loop api CONFIG n fuel adGroups start st0 =
    for_loop api CONFIG n' fuel adGroups i st.
Proof.
  intros Hr Hn. induction Hr as [|i st row st' _ IH Hrow Hp].
  - exists n. by split.
  - destruct IH as (n' & Hn' & ->).
    pose proof (index_get_Some _ _ _ Hrow) as Hi.
    destruct n' as [|n']; [lia |].
    exists n'. split; [lia |].
    rewrite for_loop_unfold.
    destruct (Z.ltb_spec i (Z.of_nat (length adGroups))); [| lia].
    rewrite Hrow. unfold bind. by rewrite Hp.
Qed.

Lemma run_reaches fuel st adGroups st0 i st_i :
  loop_entry api st = (adGroups, st0) ->
  reaches api CONFIG fuel adGroups (startIndex adGroups (props st !! cursorKey)) st0 i st_i ->
  exists n' : nat,
    Z.of_nat (length adGroups) - i <= Z.of_nat n' /\
    run api CONFIG fuel st =
    bind (for_loop api CONFIG n' fuel adGroups i) run_finish st_i.
Proof.
  intros He Hr. rewrite run_enters, He.
  apply (reaches_for_loop _ _ _ _ _ _
           (Z.to_nat (Z.of_nat (length adGroups)
                      - startIndex adGroups (props st !! cursorKey))))
    in Hr as (n' & Hn' & Heq); [| lia].
  exists n'. split; [done |]. cbv zeta. unfold bind. by rewrite Heq.
Qed.

(** ** The cursor at the start of [run] *)

Lemma startIndex_no_cursor (st : State W) (adGroups : list AdGroupRow) :
  persisted_cursor st = None -> startIndex adGroups (props st !! cursorKey) = 0.
Proof.
  unfold persisted_cursor, startIndex.
  destruct (props st !! cursorKey) as [last|]; [| done].
  by destruct (truthy last).
Qed.

Lemma persisted_cursor_Some (st : State W) (c : string) :
  persisted_cursor st = Some c ->
  props st !! cursorKey = Some c /\ truthy c = true.
Proof.
  unfold persisted_cursor.
  destruct (props st !! cursorKey) as [last|]; [| done].
  destruct (truthy last) eqn:E; [| done]. by intros [= <-].
Qed.

Lemma startIndex_missing (st : State W) (adGroups : list AdGroupRow) (c : string) :
  persisted_cursor st = Some c ->
  (forall row, row ∈ adGroups -> adGroup_id (adGroup row) <> c) ->
  startIndex adGroups (props st !! cursorKey) = -1.
Proof.
  intros [-> Ht]%persisted_cursor_Some Hall. unfold startIndex. rewrite Ht.
  apply findIndex_from_none. intros row Hrow. by apply String.eqb_neq, Hall.
Qed.

(** A truthy cursor that names no row of the fetched list: the loop is
    entered at index -1, where [adGroups[i]] is undefined. *)
Lemma run_stale_cursor (fuel : nat) (st : State W) (c : string) :
  persisted_cursor st = Some c ->
  (forall row, row ∈ fst (loop_entry api st) -> adGroup_id (adGroup row) <> c) ->
  exists st',
    run api CONFIG fuel st =
      Throw (TypeError "Cannot read properties of undefined (reading 'adGroup')") st' /\
    props st' = props st /\
    trace st' = EvGetAdGroups :: EvDeleteTrigger :: trace st.
Proof.
  intros Hc Hall. rewrite run_enters.
  destruct (loop_entry api st) as [adGroups st0] eqn:He. simpl in Hall.
  rewrite (startIndex_missing _ _ _ Hc Hall). cbv zeta.
  replace (Z.to_nat (Z.of_nat (length adGroups) - -1)) with (S (length adGroups)) by lia.
  rewrite for_loop_unfold.
  destruct (Z.ltb_spec (-1) (Z.of_nat (length adGroups))); [| lia].
  unfold index_get; simpl. unfold bind. rewrite shouldTerminate_eq. unfold throw.
  eexists; split; [reflexivity |].
  unfold loop_entry in He. destruct (getAdGroups api (world st)).
  injection He as _ <-. by split.
Qed.

(** ** One row of the loop *)

Lemma process_adGroup_quiet_watchdog (fuel : nat) (row : AdGroupRow) (st : State W) :
  watchdog_trips api st = false ->
  process_adGroup api CONFIG fuel row st =
  let st1 :=
    mkState (props st) (triggers st)
      (snd (countImages api (customer_id (customer row)) (adGroup_id (adGroup row))
              [Generated_DIR CONFIG; Uploaded_DIR CONFIG; Validated_DIR CONFIG]
              (snd (Date_now api (world st)))))
      (EvCountImages (customer_id (customer row)) (adGroup_id (adGroup row))
         [Generated_DIR CONFIG; Uploaded_DIR CONFIG; Validated_DIR CONFIG]
       :: EvLog ("Processing Ad Group " +:+ adGroup_name (adGroup row)
                 +:+ " (" +:+ adGroup_id (adGroup row) +:+ ")...")
       :: trace st) in
  let existingImgCount := existing_images api CONFIG row st in
  if existingImgCount >=? Number_of_images_per_Ad_Group CONFIG then
    bind (Logger_log ("Ad Group " +:+ adGroup_name (adGroup row) +:+ "("
            +:+ adGroup_id (adGroup row)
            +:+ ") has enough generated images, skipping...")) (fun _ => ret Normal) st1
  else
    bind (Logger_log ("Generating "
            +:+ Z_toString (Number_of_images_per_Ad_Group CONFIG - existingImgCount)
            +:+ " images for " +:+ adGroup_name (adGroup row) +:+ "("
            +:+ adGroup_id (adGroup row) +:+ ")...")) (fun _ =>
    bind (generate_loop api CONFIG fuel row
            (Number_of_images_per_Ad_Group CONFIG - existingImgCount) 0 0) (fun _ =>
    bind (setProperty cursorKey (adGroup_id (adGroup row))) (fun _ => ret Normal))) st1.
Proof.
  intros Hw. unfold process_adGroup, bind at 1. rewrite shouldTerminate_eq, Hw.
  unfold bind at 1, Logger_log at 1, emit at 1.
  unfold bind at 1, call at 1, existing_images; simpl.
  destruct (countImages api _ _ _ _) as [existing w]; simpl.
  by destruct (existing >=? _).
Qed.

Lemma dedup_cons (x : string) (l : list string) :
  exists l', dedup (x :: l) = x :: l'.
Proof.
  unfold dedup; simpl. by eexists.
Qed.

Lemma build_gAdsData_available (row : AdGroupRow) (st : State W) :
  prompt_available api CONFIG row ->
  exists gAdsData st1,
    build_gAdsData api CONFIG row st = Done (Some gAdsData) st1 /\ quiet st st1.
Proof.
  intros Ha.
  assert (exists gAdsData st1,
            build_gAdsData api CONFIG row st = Done (Some gAdsData) st1)
    as (g & st1 & Hg).
  { unfold prompt_available in Ha. unfold build_gAdsData.
    destruct (Adios_Mode CONFIG).
    - destruct Ha as [regex ->].
      destruct (getRegexMatchGroups api _ regex); by eexists _, _.
    - unfold bind at 1, call.
      specialize (Ha (world st)).
      destruct (getKeywordsForAdGroup api _ (world st)) as [[|k kw] w]; [done |].
      destruct (dedup_cons k kw) as [l' ->]. by eexists _, _.
    - by eexists _, _. }
  exists g, st1. split; [done |]. by apply build_gAdsData_quiet in Hg.
Qed.

Lemma build_imgPrompt_total (gAdsData : string) (st : State W) :
  exists imgPrompt st1,
    build_imgPrompt api CONFIG gAdsData st = Done imgPrompt st1 /\ quiet st st1.
Proof.
  assert (exists imgPrompt st1,
            build_imgPrompt api CONFIG gAdsData st = Done imgPrompt st1)
    as (p & st1 & Hp).
  { unfold build_imgPrompt.
    destruct (Adios_Mode CONFIG); unfold bind, Logger_log, emit, call, ret; simpl;
      try destruct (callGeminiApi api _ _); by eexists _, _. }
  exists p, st1. split; [done |]. by apply build_imgPrompt_quiet in Hp.
Qed.

(** In KEYWORDS mode an ad group without keywords keeps the loop
    spinning: the [continue] goes back to a test nothing has changed. *)
Lemma generate_loop_no_keywords (row : AdGroupRow) (adGroupImgCount : Z) :
  Adios_Mode CONFIG = KEYWORDS ->
  (forall w, fst (getKeywordsForAdGroup api (adGroup_id (adGroup row)) w) = []) ->
  forall (fuel : nat) (g t : Z) (st : State W),
    g < adGroupImgCount -> t <= MAX_TRIES ->
    generate_loop api CONFIG fuel row adGroupImgCount g t st = OutOfFuel.
Proof.
  intros Hmode Hkw.
  induction fuel as [|fuel IH]; intros g t st Hg Ht; rewrite generate_loop_unfold;
    destruct (Z.ltb_spec g adGroupImgCount); try lia;
    destruct (Z.leb_spec t MAX_TRIES); try lia; cbn [andb].
  - reflexivity.
  - cbv zeta. unfold bind at 1, build_gAdsData. rewrite Hmode.
    unfold bind at 1, call. specialize (Hkw (world st)).
    destruct (getKeywordsForAdGroup api _ (world st)) as [kw w].
    simpl in Hkw. subst kw. simpl. by apply IH.
Qed.

Lemma process_adGroup_no_keywords (fuel : nat) (row : AdGroupRow) (st : State W) :
  Adios_Mode CONFIG = KEYWORDS ->
  (forall w, fst (getKeywordsForAdGroup api (adGroup_id (adGroup row)) w) = []) ->
  watchdog_trips api st = false ->
  existing_images api CONFIG row st < Number_of_images_per_Ad_Group CONFIG ->
  process_adGroup api CONFIG fuel row st = OutOfFuel.
Proof.
  intros Hmode Hkw Hw Hlt. rewrite process_adGroup_quiet_watchdog by done. cbv zeta.
  destruct (Z.geb_spec (existing_images api CONFIG row st)
              (Number_of_images_per_Ad_Group CONFIG)); [lia |].
  unfold bind at 1, Logger_log, emit. unfold bind at 1.
  rewrite generate_loop_no_keywords; [done | done | done | lia | done].
Qed.

(** ** Claims about the cursor and the watchdog *)

(** C6.  When no cursor is persisted the loop of [run] starts at
    index 0.  When a cursor is persisted and some row of the fetched
    list has that identifier, the loop starts at the first position
    holding it, and its first step is to process that row again.  A
    cursor counts as persisted when the property is present and
    truthy, which is the test [run] applies. *)
Theorem C6_start_index (fuel : nat) (st : State W) :
  let adGroups := fst (loop_entry api st) in
  let st0 := snd (loop_entry api st) in
  let start := startIndex adGroups (props st !! cursorKey) in
  let n := Z.to_nat (Z.of_nat (length adGroups) - start) in
  run api CONFIG fuel st =
    bind (for_loop api CONFIG n fuel adGroups start) run_finish st0 /\
  (persisted_cursor st = None -> start = 0) /\
  (forall c,
     persisted_cursor st = Some c ->
     (exists row, row ∈ adGroups /\ adGroup_id (adGroup row) = c) ->
     exists row,
       index_get adGroups start = Some row /\
       adGroup_id (adGroup row) = c /\
       (forall j other, 0 <= j < start -> index_get adGroups j = Some other ->
                        adGroup_id (adGroup other) <> c) /\
       for_loop api CONFIG n fuel adGroups start =
         bind (process_adGroup api CONFIG fuel row) (fun c =>
           match c with
           | Return => ret Return
           | Normal => for_loop api CONFIG (pred n) fuel adGroups (start + 1)
           end)).
Proof.
  intros adGroups st0 start n. split; [| split].
  - rewrite run_enters. subst adGroups st0 start n.
    by destruct (loop_entry api st).
  - apply startIndex_no_cursor.
  - intros c [Hc Ht]%persisted_cursor_Some (row & Hin & Hid).
    assert (start = findIndex
              (fun row => String.eqb (adGroup_id (adGroup row)) c) adGroups) as Hs.
    { subst start. unfold startIndex. by rewrite Hc, Ht. }
    destruct (findIndex_from_first
                (fun row => String.eqb (adGroup_id (adGroup row)) c) adGroups 0)
      as (j & first & Hj & Hfirst & Hp & Hmin).
    { exists row. split; [done |]. by apply String.eqb_eq. }
    fold (findIndex (fun row => String.eqb (adGroup_id (adGroup row)) c) adGroups) in Hj.
    rewrite <- Hs in Hj. simpl in Hj.
    assert (index_get adGroups start = Some first) as Hget.
    { rewrite Hj, <- Hfirst. apply index_get_nat. }
    exists first. split; [done |]. split; [by apply String.eqb_eq |]. split.
    + intros k other Hk Hother.
      rewrite <- (Z2Nat.id k), index_get_nat in Hother by lia.
      apply String.eqb_neq. apply (Hmin (Z.to_nat k) other); [lia | done].
    + pose proof (index_get_Some _ _ _ Hget) as Hrange.
      destruct n as [|n'] eqn:En; [lia |].
      rewrite for_loop_unfold.
      destruct (Z.ltb_spec start (Z.of_nat (length adGroups))); [| lia].
      by rewrite Hget.
Qed.

(** C1 (amended).  When the loop of [run] arrives at a row whose
    existing image count is at least the configured target, it makes
    no call to the image-generation API and no upload for that row and
    goes on to the next row; the script properties, and so the
    persisted cursor, stay as they were. *)
Theorem C1_enough_images_skipped (fuel : nat) (st : State W) (i : Z)
    (st_i : State W) (row : AdGroupRow) :
  reaches api CONFIG fuel (fst (loop_entry api st))
    (startIndex (fst (loop_entry api st)) (props st !! cursorKey))
    (snd (loop_entry api st)) i st_i ->
  index_get (fst (loop_entry api st)) i = Some row ->
  watchdog_trips api st_i = false ->
  Number_of_images_per_Ad_Group CONFIG <= existing_images api CONFIG row st_i ->
  exists st',
    process_adGroup api CONFIG fuel row st_i = Done Normal st' /\
    reaches api CONFIG fuel (fst (loop_entry api st))
      (startIndex (fst (loop_entry api st)) (props st !! cursorKey))
      (snd (loop_entry api st)) (i + 1) st' /\
    generation_calls (trace st') = generation_calls (trace st_i) /\
    uploads (trace st') = uploads (trace st_i) /\
    props st' = props st_i.
Proof.
  intros Hr Hrow Hw Hcount.
  assert (exists st',
            process_adGroup api CONFIG fuel row st_i = Done Normal st' /\
            generation_calls (trace st') = generation_calls (trace st_i) /\
            uploads (trace st') = uploads (trace st_i) /\
            props st' = props st_i) as (st' & Hp & Hrest).
  { rewrite process_adGroup_quiet_watchdog by done. cbv zeta.
    destruct (Z.geb_spec (existing_images api CONFIG row st_i)
                (Number_of_images_per_Ad_Group CONFIG)); [| lia].
    eexists. split; [reflexivity |]. by repeat split. }
  exists st'. split; [done |]. split; [| done].
  by eapply reaches_next.
Qed.

(** The body of the [while] loop is an attempt followed by what the
    code does with its answer. *)
Lemma generate_loop_attempt (fuel : nat) (row : AdGroupRow) (adGroupImgCount g t : Z)
    (st : State W) :
  generate_loop api CONFIG (S fuel) row adGroupImgCount g t st =
  if (g <? adGroupImgCount) && (t <=? MAX_TRIES) then
    match attempt api CONFIG row adGroupImgCount g st with
    | Done None st1 => generate_loop api CONFIG fuel row adGroupImgCount g t st1
    | Done (Some images) st1 =>
        match images with
        | None | Some [] =>
            generate_loop api CONFIG fuel row adGroupImgCount g (t + 1) st1
        | Some images =>
            bind (upload_images api CONFIG row images) (fun _ =>
              generate_loop api CONFIG fuel row adGroupImgCount
                (g + Z.of_nat (length images)) t) st1
        end
    | Throw e st1 => Throw e st1
    | OutOfFuel => OutOfFuel
    end
  else Done tt st.
Proof.
  rewrite generate_loop_unfold.
  destruct ((g <? adGroupImgCount) && (t <=? MAX_TRIES)); [| reflexivity].
  cbv zeta. unfold attempt, bind.
  destruct (build_gAdsData api CONFIG row st) as [[gAdsData|] st1| |]; try reflexivity.
  destruct (build_imgPrompt api CONFIG gAdsData st1) as [imgPrompt st2| |];
    try reflexivity.
  unfold Logger_log, emit, call, ret. cbn [world].
  destruct (callVisionApi api imgPrompt (Z.min _ _) (world st2)) as [images w].
  cbn [props triggers world trace]. destruct images as [[|image rest]|]; reflexivity.
Qed.

(** An attempt that reaches the Vision API is one call of it and
    nothing else that counts. *)
Lemma attempt_one_call (row : AdGroupRow) (adGroupImgCount g : Z)
    (st st1 : State W) (images : option (list string)) :
  attempt api CONFIG row adGroupImgCount g st = Done (Some images) st1 ->
  props st1 = props st /\ triggers st1 = triggers st /\
  generation_calls (trace st1) = S (generation_calls (trace st)) /\
  uploads (trace st1) = uploads (trace st).
Proof.
  unfold attempt. unfold bind at 1.
  destruct (build_gAdsData api CONFIG row st) as [[gAdsData|] s1| |] eqn:Hg;
    try discriminate.
  apply build_gAdsData_quiet in Hg as (Hp1 & Ht1 & Hc1 & Hu1).
  unfold bind at 1.
  destruct (build_imgPrompt api CONFIG gAdsData s1) as [imgPrompt s2| |] eqn:Hp;
    try discriminate.
  apply build_imgPrompt_quiet in Hp as (Hp2 & Ht2 & Hc2 & Hu2).
  unfold bind, Logger_log, emit, call, ret. cbn [world].
  destruct (callVisionApi api imgPrompt (Z.min _ _) (world s2)) as [images' w].
  intros [= _ <-]. cbn [props triggers trace generation_calls uploads].
  repeat split; congruence.
Qed.

(** The attempts that are left all come back empty: the loop makes
    them, one call each, and gives up. *)
Lemma generate_loop_empty_attempts (row : AdGroupRow) (adGroupImgCount : Z) :
  0 < adGroupImgCount ->
  forall (fuel : nat) (t : Z) (st : State W),
    0 <= t ->
    (Z.to_nat (MAX_TRIES + 1 - t) <= fuel)%nat ->
    empty_attempts api CONFIG (Z.to_nat (MAX_TRIES + 1 - t)) row adGroupImgCount st ->
    exists st',
      generate_loop api CONFIG fuel row adGroupImgCount 0 t st = Done tt st' /\
      props st' = props st /\
      triggers st' = triggers st /\
      generation_calls (trace st')
        = (Z.to_nat (MAX_TRIES + 1 - t) + generation_calls (trace st))%nat /\
      uploads (trace st') = uploads (trace st).
Proof.
  intros Hcount. unfold MAX_TRIES.
  induction fuel as [|fuel IH]; intros t st Ht Hfuel Hempty.
  - rewrite generate_loop_unfold. unfold MAX_TRIES.
    destruct (Z.ltb_spec 0 adGroupImgCount); [| lia].
    destruct (Z.leb_spec t 3); [lia |]. cbn [andb].
    exists st. replace (Z.to_nat (3 + 1 - t)) with O by lia. by repeat split.
  - rewrite generate_loop_attempt. unfold MAX_TRIES.
    destruct (Z.ltb_spec 0 adGroupImgCount); [| lia].
    destruct (Z.leb_spec t 3); cbn [andb].
    + replace (Z.to_nat (3 + 1 - t)) with (S (Z.to_nat (3 + 1 - (t + 1)))) in * by lia.
      cbn [empty_attempts] in Hempty.
      destruct Hempty as (images & st1 & Ha & Hlen & Hrest).
      rewrite Ha.
      destruct (attempt_one_call _ _ _ _ _ _ Ha) as (Hp1 & Ht1 & Hc1 & Hu1).
      destruct (IH (t + 1) st1) as (st' & Hloop & Hprops & Htrig & Hcalls & Hup);
        [lia | lia | exact Hrest |].
      exists st'. split.
      { destruct images as [[|image rest]|]; [exact Hloop | | exact Hloop].
        cbn [images_length length] in Hlen. lia. }
      repeat split; try congruence.
      rewrite Hcalls, Hc1. lia.
    + exists st. replace (Z.to_nat (3 + 1 - t)) with O by lia. by repeat split.
Qed.

(** C4.  When the loop of [run] arrives at a row that lacks images
    and the four passes [run] makes for that row - the first attempt
    and three retries, each built from the row as the code builds it -
    all reach the image-generation API and get no image from it, [run]
    makes exactly these 4 calls for the row, uploads nothing, raises no
    error, persists the identifier of the row as the cursor and goes on
    with the next row: the whole run is the rest of the loop, from the
    next index, in the state the row leaves.  Only the answers to the
    attempts of this row are assumed; the API may return images for
    every other request. *)
Theorem C4_retry_cap (fuel : nat) (st : State W) (i : Z)
    (st_i : State W) (row : AdGroupRow) :
  reaches api CONFIG fuel (fst (loop_entry api st))
    (startIndex (fst (loop_entry api st)) (props st !! cursorKey))
    (snd (loop_entry api st)) i st_i ->
  index_get (fst (loop_entry api st)) i = Some row ->
  watchdog_trips api st_i = false ->
  existing_images api CONFIG row st_i < Number_of_images_per_Ad_Group CONFIG ->
  empty_attempts api CONFIG 4 row
    (Number_of_images_per_Ad_Group CONFIG - existing_images api CONFIG row st_i)
    (loop_start api CONFIG row st_i) ->
  (4 <= fuel)%nat ->
  exists (st' : State W) (n' : nat),
    process_adGroup api CONFIG fuel row st_i = Done Normal st' /\
    generation_calls (trace st') = (4 + generation_calls (trace st_i))%nat /\
    uploads (trace st') = uploads (trace st_i) /\
    props st' = <[cursorKey := adGroup_id (adGroup row)]> (props st_i) /\
    Z.of_nat (length (fst (loop_entry api st))) - (i + 1) <= Z.of_nat n' /\
    run api CONFIG fuel st =
      bind (for_loop api CONFIG n' fuel (fst (loop_entry api st)) (i + 1))
        run_finish st'.
Proof.
  intros Hr Hrow Hw Hcount Hempty Hfuel.
  assert (exists st',
            process_adGroup api CONFIG fuel row st_i = Done Normal st' /\
            generation_calls (trace st') = (4 + generation_calls (trace st_i))%nat /\
            uploads (trace st') = uploads (trace st_i) /\
            props st' = <[cursorKey := adGroup_id (adGroup row)]> (props st_i))
    as (st' & Hp & Hcalls & Hup & Hprops).
  { rewrite process_adGroup_quiet_watchdog by done. cbv zeta.
    destruct (Z.geb_spec (existing_images api CONFIG row st_i)
                (Number_of_images_per_Ad_Group CONFIG)); [lia |].
    unfold bind at 1, Logger_log, emit. unfold bind at 1.
    destruct (generate_loop_empty_attempts row
                (Number_of_images_per_Ad_Group CONFIG
                 - existing_images api CONFIG row st_i) ltac:(lia) fuel 0
                (loop_start api CONFIG row st_i))
      as (st1 & Hloop & Hprops & _ & Hcalls & Hup);
      [lia | unfold MAX_TRIES; lia | exact Hempty |].
    match goal with
    | |- exists st', match generate_loop _ _ _ _ _ 0 0 ?s with _ => _ end = _ /\ _ =>
        change s with (loop_start api CONFIG row st_i)
    end.
    rewrite Hloop.
    unfold bind, setProperty, ret. eexists. split; [reflexivity |].
    cbn [props trace generation_calls uploads].
    rewrite Hcalls, Hup, Hprops. by repeat split. }
  destruct (run_reaches fuel st (fst (loop_entry api st)) (snd (loop_entry api st))
              (i + 1) st') as (n' & Hn' & Hrun).
  { by destruct (loop_entry api st). }
  { by eapply reaches_next. }
  exists st', n'. by repeat split.
Qed.

(** C5.  Spec-modelled watchdog.  Whenever the loop of [run] arrives
    at a row and the time elapsed since the persisted run-start
    timestamp exceeds the budget, [run] persists the identifier of
    that row as the cursor, schedules a follow-up invocation, which is
    then the only pending one, and returns at once: the trace grows by
    the log line, the property write and the trigger only, so neither
    this row nor a later one is processed. *)
Theorem C5_watchdog_return (fuel : nat) (st : State W) (i d : Z)
    (st_i : State W) (row : AdGroupRow) :
  reaches api CONFIG fuel (fst (loop_entry api st))
    (startIndex (fst (loop_entry api st)) (props st !! cursorKey))
    (snd (loop_entry api st)) i st_i ->
  index_get (fst (loop_entry api st)) i = Some row ->
  elapsed st_i (fst (Date_now api (world st_i))) = Some d ->
  MAX_EXECUTION_TIME api < d ->
  exists msg,
    run api CONFIG fuel st =
      Done Return
        (mkState (<[cursorKey := adGroup_id (adGroup row)]> (props st_i)) 1
           (snd (Date_now api (world st_i)))
           (EvCreateTrigger
              :: EvSetProperty cursorKey (adGroup_id (adGroup row))
              :: EvLog msg :: trace st_i)).
Proof.
  intros Hr Hrow Hd Hlt.
  destruct (loop_entry api st) as [adGroups st0] eqn:He. simpl in Hr, Hrow.
  pose proof (reaches_triggers _ _ _ _ _ _ Hr) as Htr.
  assert (triggers st0 = O) as Hz.
  { unfold loop_entry in He. destruct (getAdGroups api (world st)).
    by injection He as _ <-. }
  destruct (run_reaches _ _ _ _ _ _ He Hr) as (n' & Hn' & ->).
  pose proof (index_get_Some _ _ _ Hrow) as Hi.
  destruct n' as [|n']; [lia |].
  rewrite for_loop_unfold.
  destruct (Z.ltb_spec i (Z.of_nat (length adGroups))); [| lia].
  rewrite Hrow. unfold bind at 1 2, process_adGroup, bind at 1.
  rewrite shouldTerminate_eq. unfold watchdog_trips. rewrite Hd.
  destruct (Z.ltb_spec (MAX_EXECUTION_TIME api) d); [| lia].
  eexists. unfold bind, Logger_log, emit, setProperty, createTriggerForNextRun, ret.
  simpl. rewrite Htr, Hz. reflexivity.
Qed.

(** C7.  Spec-modelled trigger.  When the loop of [run] gets past the
    last row, no iteration having returned early, [run] logs, deletes
    the cursor property, cancels the pending self-trigger and ends:
    afterwards the cursor key is absent and no trigger is pending. *)
Theorem C7_completion (fuel : nat) (st st_n : State W) :
  reaches api CONFIG fuel (fst (loop_entry api st))
    (startIndex (fst (loop_entry api st)) (props st !! cursorKey))
    (snd (loop_entry api st))
    (Z.of_nat (length (fst (loop_entry api st)))) st_n ->
  exists st',
    run api CONFIG fuel st = Done Normal st' /\
    st' = mkState (delete cursorKey (props st_n)) O (world st_n)
            (EvDeleteTrigger :: EvDeleteProperty cursorKey
               :: EvLog "Finished generating." :: trace st_n) /\
    props st' !! cursorKey = None /\
    triggers st' = O.
Proof.
  intros Hr.
  destruct (loop_entry api st) as [adGroups st0] eqn:He. simpl in Hr.
  destruct (run_reaches _ _ _ _ _ _ He Hr) as (n' & _ & ->).
  rewrite for_loop_unfold, Z.ltb_irrefl.
  eexists. split; [reflexivity |]. split; [reflexivity |].
  split; [apply lookup_delete_eq | reflexivity].
Qed.

(** C10.  Whatever the script properties hold, the statements of
    [manuallyRun] before [run] persist the clock reading as the
    run-start timestamp and delete a persisted cursor, so that no
    cursor is persisted when [run] is called and its loop starts at
    index 0. *)
Theorem C10_manual_run_fresh (fuel : nat) (st : State W) :
  exists st',
    manuallyRun_prepare api st = Done tt st' /\
    manuallyRun api CONFIG fuel st = run api CONFIG fuel st' /\
    props st' !! startTimeKey = Some (Z_toString (fst (Date_now api (world st)))) /\
    props st' !! cursorKey =
      match persisted_cursor st with
      | Some _ => None
      | None => props st !! cursorKey
      end /\
    persisted_cursor st' = None /\
    (forall adGroups, startIndex adGroups (props st' !! cursorKey) = 0) /\
    run api CONFIG fuel st' =
      bind (for_loop api CONFIG (length (fst (loop_entry api st'))) fuel
              (fst (loop_entry api st')) 0)
        run_finish (snd (loop_entry api st')).
Proof.
  assert (exists st',
            manuallyRun_prepare api st = Done tt st' /\
            props st' !! startTimeKey
              = Some (Z_toString (fst (Date_now api (world st)))) /\
            props st' !! cursorKey =
              match persisted_cursor st with
              | Some _ => None
              | None => props st !! cursorKey
              end) as (st' & Hprep & Hstart & Hcur).
  { unfold manuallyRun_prepare, bind, now, setProperty, getProperty, persisted_cursor.
    destruct (Date_now api (world st)) as [t w]; simpl.
    assert (cursorKey <> startTimeKey) as Hne by done.
    rewrite lookup_insert_ne by done.
    destruct (props st !! cursorKey) as [last|] eqn:Hc; [destruct (truthy last) |].
    - unfold deleteProperty, Logger_log, emit; simpl.
      eexists. split; [reflexivity |]. simpl.
      split; [by rewrite lookup_delete_ne, lookup_insert_eq | apply lookup_delete_eq].
    - eexists. split; [reflexivity |]. simpl.
      split; [by rewrite lookup_insert_eq | by rewrite lookup_insert_ne].
    - eexists. split; [reflexivity |]. simpl.
      split; [by rewrite lookup_insert_eq | by rewrite lookup_insert_ne]. }
  assert (persisted_cursor st' = None) as Hnone.
  { unfold persisted_cursor at 1. rewrite Hcur.
    destruct (persisted_cursor st) eqn:Hp; [done |].
    unfold persisted_cursor in Hp.
    destruct (props st !! cursorKey) as [last|]; [| done].
    by destruct (truthy last). }
  exists st'. split; [done |].
  split; [unfold manuallyRun, bind; by rewrite Hprep |].
  split; [done |]. split; [done |]. split; [done |].
  split; [intros; by apply startIndex_no_cursor |].
  rewrite run_enters. destruct (loop_entry api st') as [adGroups st0]; simpl.
  rewrite (startIndex_no_cursor _ _ Hnone), Z.sub_0_r. by rewrite Nat2Z.id.
Qed.

End Properties.

(** ** File names *)

Lemma replaceAll_scan_slash_free (before s : string) :
  occurs "/" (replaceAll_scan "/" "" before s 0) = false.
Proof.
  revert before. induction s as [|c s IH]; intros before; [done |].
  rewrite replaceAll_scan_cons, prefix_cons, prefix_nil, andb_true_r.
  destruct (Ascii.eqb "/" c) eqn:Hc.
  - cbn [GetSubstitution String.length Nat.sub]. rewrite append_nil_l. apply IH.
  - by rewrite occurs_cons, Hc, IH.
Qed.

Lemma substring_0_occurs (c : ascii) (n : nat) (s : string) :
  occurs c s = false -> occurs c (String.substring 0 n s) = false.
Proof.
  revert n. induction s as [|d s IH]; intros [|n] Hs; try done.
  apply occurs_cons_false in Hs as [Hd Hs].
  cbn [String.substring]. by rewrite occurs_cons, Hd, IH.
Qed.

Lemma substring_0_length (n : nat) (s : string) :
  (String.length (String.substring 0 n s) <= n)%nat.
Proof.
  revert n. induction s as [|d s IH]; intros [|n]; cbn [String.substring String.length];
    try lia.
  specialize (IH n). lia.
Qed.

Lemma slice0_length (s : string) (e : Z) :
  0 <= e -> Z.of_nat (String.length (slice0 s e)) <= e.
Proof.
  intros He. unfold slice0.
  destruct (Z.ltb_spec e 0); [lia |].
  pose proof (substring_0_length
                (Z.to_nat (Z.min e (Z.of_nat (String.length s)))) s). lia.
Qed.

(** What does hold of [generateImageFileName]: the result has the form
    id|name|timestamp, the name part has no slash, and the whole is at
    most 128 characters long provided the second clock reading prints
    no longer than the first and the identifier leaves room for it. *)
Lemma generateImageFileName_shape {W R : Type} (api : Collaborators W R)
    (adGroupId adGroupName : string) (st : State W) :
  let t1 := fst (Date_now api (world st)) in
  let t2 := fst (Date_now api (snd (Date_now api (world st)))) in
  exists trimmed st',
    generateImageFileName api adGroupId adGroupName st
      = Done (adGroupId +:+ "|" +:+ trimmed +:+ "|" +:+ Z_toString t2) st' /\
    occurs "/" trimmed = false /\
    ((String.length adGroupId + String.length (Z_toString t1) + 2 <= 128)%nat ->
     (String.length (Z_toString t2) <= String.length (Z_toString t1))%nat ->
     (String.length (adGroupId +:+ "|" +:+ trimmed +:+ "|" +:+ Z_toString t2) <= 128)%nat).
Proof.
  intros t1 t2. subst t1 t2.
  unfold generateImageFileName, bind, now, ret.
  destruct (Date_now api (world st)) as [t1 w1]; simpl.
  destruct (Date_now api w1) as [t2 w2]; simpl.
  eexists _, _. split; [reflexivity |]. split.
  - apply substring_0_occurs, replaceAll_scan_slash_free.
  - intros Hroom Hsecond.
    rewrite !length_append. cbn [String.length].
    match goal with
    | |- context [String.length (slice0 ?s ?e)] =>
        pose proof (slice0_length s e ltac:(lia))
    end.
    lia.
Qed.

(** ** Prompts *)

(** For a template in which a dollar sign only starts a placeholder,
    whose placeholder names have no closing brace, and for a mapping
    whose keys have no closing brace and whose values have no dollar
    sign, [createPrompt] returns the template with every placeholder
    named by a key replaced by the value of that key and every other
    placeholder left as it is. *)
Lemma createPrompt_plain_template (CONFIG : Config) (obj : list (string * string))
    (template : list segment) :
  ImgGen_Prompt CONFIG = render template ->
  plain_template template = true ->
  plain_entries obj = true ->
  createPrompt CONFIG obj = substitute obj template.
Proof.
  intros Ht Htpl Hobj. unfold createPrompt. rewrite Ht.
  by apply fold_replaceAll_render.
Qed.

Example createPrompt_unmatched :
  createPrompt (config AD_GROUP 2 "A ${city} at ${time}") [("city", "London")]
  = "A London at ${time}".
Proof.
  apply (fold_replaceAll_render [("city", "London")]
           [Text "A "; Placeholder "city"; Text " at "; Placeholder "time"]); reflexivity.
Qed.

(** The entries are applied one after the other to the whole prompt,
    in the order of the mapping: a value that contains the placeholder
    of a later key is itself rewritten. *)
Example createPrompt_in_mapping_order :
  createPrompt (config AD_GROUP 2 "${a} and ${b}") [("a", "${b}"); ("b", "x")]
  = "x and x".
Proof. reflexivity. Qed.

(** A value with a replacement pattern of [replaceAll] is not inserted
    as it is. *)
Example createPrompt_dollar_pattern :
  createPrompt city_prompt [("city", "$&")] = "A photo of a ${city}".
Proof. reflexivity. Qed.

Lemma has_pattern_cons (c : ascii) (rest : string) :
  has_pattern (String c rest) =
  (Ascii.eqb c "$" &&
   match rest with
   | String d _ =>
       Ascii.eqb d "$" || Ascii.eqb d "&" || Ascii.eqb d "`" || Ascii.eqb d "'"
   | EmptyString => false
   end)
  || has_pattern rest.
Proof. reflexivity. Qed.

Lemma GetSubstitution_cons (matched before after : string) (c : ascii) (repl : string) :
  GetSubstitution matched before after (String c repl) =
  if Ascii.eqb c "$" then
    match repl with
    | String d repl'' =>
        if Ascii.eqb d "$" then
          String "$" (GetSubstitution matched before after repl'')
        else if Ascii.eqb d "&" then
          matched +:+ GetSubstitution matched before after repl''
        else if Ascii.eqb d "`" then
          before +:+ GetSubstitution matched before after repl''
        else if Ascii.eqb d "'" then
          after +:+ GetSubstitution matched before after repl''
        else String c (GetSubstitution matched before after repl)
    | EmptyString => String c EmptyString
    end
  else String c (GetSubstitution matched before after repl).
Proof. destruct repl; reflexivity. Qed.

(** A replacement text without a pattern is inserted as it stands. *)
Lemma GetSubstitution_no_pattern (matched before after repl : string) :
  has_pattern repl = false -> GetSubstitution matched before after repl = repl.
Proof.
  induction repl as [|c repl IH]; [done |].
  rewrite has_pattern_cons. intros [Hc Hr]%orb_false_iff.
  rewrite GetSubstitution_cons.
  destruct (Ascii.eqb c "$").
  - destruct repl as [|d repl'']; [done |].
    cbn [andb] in Hc.
    apply orb_false_iff in Hc as [Hc H4].
    apply orb_false_iff in Hc as [Hc H3].
    apply orb_false_iff in Hc as [H1 H2].
    rewrite H1, H2, H3, H4. f_equal. by apply IH.
  - f_equal. by apply IH.
Qed.

Lemma replace_every_scan_cons (pat value : string) (c : ascii) (s : string)
    (skip : nat) :
  replace_every_scan pat value (String c s) skip =
  match skip with
  | S k => replace_every_scan pat value s k
  | O =>
      if String.prefix pat (String c s)
      then value +:+ replace_every_scan pat value s (String.length pat - 1)
      else String c (replace_every_scan pat value s O)
  end.
Proof. reflexivity. Qed.

Lemma replaceAll_scan_literal (pat repl : string) :
  has_pattern repl = false ->
  forall (s before : string) (skip : nat),
    replaceAll_scan pat repl before s skip = replace_every_scan pat repl s skip.
Proof.
  intros Hrepl. induction s as [|c s IH]; intros before skip; [done |].
  rewrite replaceAll_scan_cons, replace_every_scan_cons.
  destruct skip as [|k]; [| apply IH].
  rewrite GetSubstitution_no_pattern by done. by rewrite !IH.
Qed.

(** X18.  When no value of the mapping holds a replacement pattern
    (a dollar sign followed by a dollar sign, an ampersand, a backtick
    or a quote), [createPrompt] is the entries applied one after the
    other in the order of the mapping, each replacing every occurrence
    of its placeholder in the text the previous one left by its value
    as it stands - whatever the template and the keys, dollar signs in
    the template included. *)
Theorem createPrompt_inject_values (CONFIG : Config) (obj : list (string * string)) :
  (forall key value, (key, value) ∈ obj -> has_pattern value = false) ->
  createPrompt CONFIG obj = inject_values (ImgGen_Prompt CONFIG) obj.
Proof.
  unfold createPrompt, inject_values. generalize (ImgGen_Prompt CONFIG) as template.
  induction obj as [|[key value] obj IH]; intros template Hobj; [done |].
  cbn [fold_left]. unfold replaceAll at 2, replace_every at 2.
  rewrite replaceAll_scan_literal by (eapply Hobj; apply list_elem_of_here).
  apply IH. intros k v Hin. eapply Hobj. by apply list_elem_of_further.
Qed.

(** C9.  The code does not always put the value of a key in the place
    of its placeholder.  For the ad group [Big $$ Sale Ad], the
    configured expression gives the mapping {offer: "Big $$ Sale"};
    with the template [A poster for ${offer}] the placeholder should
    become [Big $$ Sale], and [createPrompt] returns
    [A poster for Big $ Sale]: [replaceAll] reads the two dollar signs
    of the value as the replacement pattern for one.  This is the
    prompt [run] sends to the Vision API.  With the value [$&] the
    placeholder is not replaced at all. *)
Theorem C9_dollar_value_not_injected :
  createPrompt offer_prompt [("offer", "Big $$ Sale")] = "A poster for Big $ Sale" /\
  inject_values (ImgGen_Prompt offer_prompt) [("offer", "Big $$ Sale")]
    = "A poster for Big $$ Sale" /\
  contains "Big $$ Sale" (createPrompt offer_prompt [("offer", "Big $$ Sale")]) = false /\
  createPrompt city_prompt [("city", "$&")] = "A photo of a ${city}" /\
  exists st',
    run (scenario_api offer_shop) offer_prompt 10 (started []) = Done Normal st' /\
    vision_prompts (trace st') = ["A poster for Big $ Sale"].
Proof.
  repeat split. eexists. split; [vm_compute; reflexivity | reflexivity].
Qed.

(** ** The claims on concrete runs *)

Lemma C6_start_index_witness :
  exists r,
    index_get (sc_adGroups shoes_and_hats)
      (startIndex (sc_adGroups shoes_and_hats) (Some "2")) = Some r /\
    adGroup_id (adGroup r) = "2".
Proof.
  destruct (C6_start_index (scenario_api shoes_and_hats) city_prompt 10
              (started [(cursorKey, "2")])) as (_ & _ & H).
  destruct (H "2") as (r & Hget & Hid & _).
  - vm_compute. reflexivity.
  - exists (row "7" "2" "Hats Ad"). split; [| reflexivity].
    simpl. apply list_elem_of_further, list_elem_of_here.
  - exists r. split; [exact Hget | exact Hid].
Defined.

(** The end-to-end example runs through both ad groups. *)
Lemma shoes_and_hats_runs_through :
  exists st_n,
    reaches (scenario_api shoes_and_hats) city_prompt 10
      (fst (loop_entry (scenario_api shoes_and_hats) (started [])))
      (startIndex (fst (loop_entry (scenario_api shoes_and_hats) (started [])))
         (props (started []) !! cursorKey))
      (snd (loop_entry (scenario_api shoes_and_hats) (started [])))
      (Z.of_nat (length (fst (loop_entry (scenario_api shoes_and_hats) (started [])))))
      st_n.
Proof.
  eexists.
  change (Z.of_nat (length (fst (loop_entry (scenario_api shoes_and_hats) (started [])))))
    with (0 + 1 + 1).
  eapply reaches_next.
  - eapply reaches_next.
    + apply reaches_start.
    + vm_compute. reflexivity.
    + vm_compute. reflexivity.
  - vm_compute. reflexivity.
  - vm_compute. reflexivity.
Qed.

Lemma C7_completion_witness :
  exists st',
    run (scenario_api shoes_and_hats) city_prompt 10 (started []) = Done Normal st' /\
    props st' !! cursorKey = None /\
    triggers st' = O.
Proof.
  destruct shoes_and_hats_runs_through as [st_n Hreaches].
  destruct (C7_completion (scenario_api shoes_and_hats) city_prompt 10 (started []) st_n
              Hreaches) as (st' & Hrun & _ & Hcursor & Htriggers).
  exists st'. split; [exact Hrun |]. split; [exact Hcursor | exact Htriggers].
Defined.

(** With a clock that gains 100 seconds per reading, the first ad group
    is processed and the budget of five minutes is spent when the loop
    arrives at the second. *)
Lemma slow_clock_reaches_hats :
  exists st_i d,
    reaches (scenario_api (shop (Some ["a"]) 0 100000)) city_prompt 10
      (fst (loop_entry (scenario_api (shop (Some ["a"]) 0 100000)) (started [])))
      (startIndex
         (fst (loop_entry (scenario_api (shop (Some ["a"]) 0 100000)) (started [])))
         (props (started []) !! cursorKey))
      (snd (loop_entry (scenario_api (shop (Some ["a"]) 0 100000)) (started [])))
      (0 + 1) st_i /\
    elapsed st_i (fst (Date_now (scenario_api (shop (Some ["a"]) 0 100000)) (world st_i)))
      = Some d /\
    MAX_EXECUTION_TIME (scenario_api (shop (Some ["a"]) 0 100000)) < d.
Proof.
  eexists _, _. split; [| split].
  - eapply reaches_next.
    + apply reaches_start.
    + vm_compute. reflexivity.
    + vm_compute. reflexivity.
  - vm_compute. reflexivity.
  - vm_compute. reflexivity.
Qed.

Lemma C5_watchdog_return_witness :
  exists st',
    run (scenario_api (shop (Some ["a"]) 0 100000)) city_prompt 10 (started [])
      = Done Return st' /\
    props st' !! cursorKey = Some "2" /\
    triggers st' = 1%nat.
Proof.
  destruct slow_clock_reaches_hats as (st_i & d & Hreaches & Helapsed & Hbudget).
  destruct (C5_watchdog_return (scenario_api (shop (Some ["a"]) 0 100000)) city_prompt
              10 (started []) (0 + 1) d st_i (row "7" "2" "Hats Ad") Hreaches
              eq_refl Helapsed Hbudget) as (msg & Hrun).
  eexists. split; [exact Hrun |]. split; [apply lookup_insert_eq | reflexivity].
Defined.

(** With the Vision API that has nothing for the prompt of the first
    ad group, the four attempts for that ad group come back empty. *)
Lemma no_shoes_attempts :
  empty_attempts no_shoes_api city_prompt 4 (row "7" "1" "Shoes Ad")
    (Number_of_images_per_Ad_Group city_prompt
     - existing_images no_shoes_api city_prompt (row "7" "1" "Shoes Ad")
         (snd (loop_entry no_shoes_api (started []))))
    (loop_start no_shoes_api city_prompt (row "7" "1" "Shoes Ad")
       (snd (loop_entry no_shoes_api (started [])))).
Proof.
  cbn [empty_attempts].
  eexists _, _. split; [vm_compute; reflexivity |]. split; [reflexivity |].
  eexists _, _. split; [vm_compute; reflexivity |]. split; [reflexivity |].
  eexists _, _. split; [vm_compute; reflexivity |]. split; [reflexivity |].
  eexists _, _. split; [vm_compute; reflexivity |]. split; [reflexivity |].
  exact I.
Qed.

(** The same API does return images for the other ad group. *)
Example no_shoes_api_has_hats :
  exists st',
    run no_shoes_api city_prompt 10 (started []) = Done Normal st' /\
    generation_calls (trace st') = 5%nat /\
    uploads (trace st') = 2%nat /\
    props st' !! cursorKey = None.
Proof. eexists. split; [vm_compute; reflexivity |]. by repeat split. Qed.

Lemma C4_retry_cap_witness :
  exists st',
    process_adGroup no_shoes_api city_prompt 10 (row "7" "1" "Shoes Ad")
      (snd (loop_entry no_shoes_api (started [])))
      = Done Normal st' /\
    generation_calls (trace st') = 4%nat /\
    uploads (trace st') = 0%nat /\
    props st' !! cursorKey = Some "1".
Proof.
  edestruct (C4_retry_cap no_shoes_api city_prompt 10 (started []) 0)
    as (st' & n' & Hp & Hcalls & Hup & Hprops & _).
  - apply reaches_start.
  - vm_compute. reflexivity.
  - vm_compute. reflexivity.
  - vm_compute. reflexivity.
  - exact no_shoes_attempts.
  - lia.
  - exists st'. split; [exact Hp |]. split; [exact Hcalls |]. split; [exact Hup |].
    rewrite Hprops. apply lookup_insert_eq.
Defined.

Lemma C1_enough_images_skipped_witness :
  exists st',
    process_adGroup (scenario_api (shop (Some ["a"]) 5 1)) city_prompt 10
      (row "7" "1" "Shoes Ad")
      (snd (loop_entry (scenario_api (shop (Some ["a"]) 5 1)) (started [])))
      = Done Normal st' /\
    generation_calls (trace st') = 0%nat /\
    props st' !! cursorKey = None.
Proof.
  edestruct (C1_enough_images_skipped (scenario_api (shop (Some ["a"]) 5 1)) city_prompt
               10 (started []) 0) as (st' & Hp & _ & Hcalls & _ & Hprops).
  - apply reaches_start.
  - vm_compute. reflexivity.
  - vm_compute. reflexivity.
  - vm_compute. discriminate.
  - exists st'. split; [exact Hp |]. split; [exact Hcalls |].
    rewrite Hprops. vm_compute. reflexivity.
Defined.

(** The claim C1 as written fails: an ad group with 5 images against a
    target of 2 is skipped, and its identifier is not persisted, neither
    right after its iteration nor anywhere in the run. *)
Lemma C1_counterexample :
  let api := scenario_api (shop (Some ["a"]) 5 1) in
  let st0 := snd (loop_entry api (started [])) in
  let item := row "7" "1" "Shoes Ad" in
  Number_of_images_per_Ad_Group city_prompt <= existing_images api city_prompt item st0 /\
  (exists st',
     process_adGroup api city_prompt 10 item st0 = Done Normal st' /\
     props st' !! cursorKey <> Some (adGroup_id (adGroup item))) /\
  (exists st'',
     run api city_prompt 10 (started []) = Done Normal st'' /\
     ~ In (EvSetProperty cursorKey "1") (trace st'')).
Proof.
  split; [| split].
  - vm_compute. discriminate.
  - eexists. split; [vm_compute; reflexivity |]. vm_compute. discriminate.
  - eexists. split; [vm_compute; reflexivity |].
    simpl. intros H. repeat destruct H as [H | H]; try discriminate H. exact H.
Qed.

(** C2.  The code does not restart from the first row: with the cursor
    "999" persisted and no such ad group in the fetched list, [run]
    enters its loop at index -1 and throws before it processes any row. *)
Theorem C2_stale_cursor_throws :
  forall fuel : nat,
    exists st',
      run (scenario_api shoes_and_hats) city_prompt fuel (started [(cursorKey, "999")])
        = Throw (TypeError "Cannot read properties of undefined (reading 'adGroup')") st' /\
      startIndex (sc_adGroups shoes_and_hats) (Some "999") = -1 /\
      trace st' = [EvGetAdGroups; EvDeleteTrigger].
Proof.
  intros fuel.
  destruct (run_stale_cursor (scenario_api shoes_and_hats) city_prompt fuel
              (started [(cursorKey, "999")]) "999") as (st' & Hrun & _ & Htrace).
  - vm_compute. reflexivity.
  - intros r Hr. simpl in Hr.
    apply elem_of_cons in Hr as [-> | Hr]; [discriminate |].
    apply elem_of_cons in Hr as [-> | Hr]; [discriminate |].
    by apply elem_of_nil in Hr.
  - exists st'. split; [exact Hrun |]. split; [reflexivity | exact Htrace].
Qed.

(** C3.  The code does not move on: in KEYWORDS mode, for an ad group
    that lacks images and has no keywords, the loop of attempts never
    ends, whatever the fuel; no call of the Vision API is made, the
    cursor is not written and [run] does not return. *)
Theorem C3_no_keywords_never_returns :
  forall fuel : nat,
    run (scenario_api shoes_and_hats) (config KEYWORDS 2 "") fuel (started [])
      = OutOfFuel.
Proof.
  intros fuel. rewrite run_enters.
  change (loop_entry (scenario_api shoes_and_hats) (started []))
    with (sc_adGroups shoes_and_hats,
          mkState (props (started [])) O 1700000000000 [EvGetAdGroups; EvDeleteTrigger]).
  cbv zeta. unfold bind.
  change (startIndex (sc_adGroups shoes_and_hats) (props (started []) !! cursorKey))
    with 0.
  change (Z.to_nat (Z.of_nat (length (sc_adGroups shoes_and_hats)) - 0)) with 2%nat.
  rewrite for_loop_unfold.
  change (0 <? Z.of_nat (length (sc_adGroups shoes_and_hats))) with true.
  change (index_get (sc_adGroups shoes_and_hats) 0) with (Some (row "7" "1" "Shoes Ad")).
  cbv iota. unfold bind.
  rewrite process_adGroup_no_keywords; [reflexivity | reflexivity | | |].
  - intros w. reflexivity.
  - vm_compute. reflexivity.
  - vm_compute. reflexivity.
Qed.

Example end_to_end :
  exists st',
    run (scenario_api shoes_and_hats) city_prompt 10 (started []) = Done Normal st' /\
    uploads (trace st') = 4%nat /\
    generation_calls (trace st') = 2%nat /\
    props st' !! cursorKey = None.
Proof. eexists. split; [vm_compute; reflexivity |]. by repeat split. Qed.

Example keywords_deduplicated :
  join (dedup ["red"; "blue"; "red"]) = "red,blue".
Proof. reflexivity. Qed.

Lemma substring_0_prefix (n : nat) (s : string) :
  String.prefix (String.substring 0 n s) s = true.
Proof.
  revert n. induction s as [|c s IH]; intros [|n]; cbn [String.substring]; try done.
  by rewrite prefix_cons, Ascii.eqb_refl, IH.
Qed.



(** * Further properties of the service *)

(** ** More on strings *)

Lemma substring_0_all (n : nat) (s : string) :
  (String.length s <= n)%nat -> String.substring 0 n s = s.
Proof.
  revert n. induction s as [|c s IH]; intros [|n] Hn; cbn [String.substring]; try done.
  - cbn [String.length] in Hn. lia.
  - f_equal. apply IH. cbn [String.length] in Hn. lia.
Qed.

Lemma prefix_split (p s : string) :
  String.prefix p s = true -> exists rest, s = p +:+ rest.
Proof.
  revert s. induction p as [|c p IH]; intros s Hp.
  - by exists s.
  - destruct s as [|d s]; [done |].
    rewrite prefix_cons in Hp. apply andb_true_iff in Hp as [->%Ascii.eqb_eq Hp].
    destruct (IH s Hp) as [rest ->]. by exists rest.
Qed.

Lemma scan_skip_any (pat repl x rest before : string) :
  replaceAll_scan pat repl before (x +:+ rest) (String.length x)
  = replaceAll_scan pat repl (before +:+ x) rest 0.
Proof.
  revert before. induction x as [|c x IH]; intros before.
  - by rewrite append_nil_r.
  - rewrite append_cons, replaceAll_scan_cons. cbn [String.length].
    rewrite IH. by rewrite append_assoc.
Qed.

Lemma replaceAll_scan_absent (pat repl before s : string) :
  contains pat s = false -> replaceAll_scan pat repl before s 0 = s.
Proof.
  revert before. induction s as [|c s IH]; intros before Hs; [done |].
  cbn [contains] in Hs. apply orb_false_iff in Hs as [Hp Hs].
  rewrite replaceAll_scan_cons, Hp. f_equal. by apply IH.
Qed.

Lemma replaceAll_scan_self (pat : string) (n : nat) :
  pat <> "" ->
  forall s before,
    (String.length s <= n)%nat -> replaceAll_scan pat "$&" before s 0 = s.
Proof.
  intros Hpat. induction n as [|n IH]; intros s before Hn.
  - destruct s; [done |]. cbn [String.length] in Hn. lia.
  - destruct s as [|c s]; [done |].
    rewrite replaceAll_scan_cons.
    destruct (String.prefix pat (String c s)) eqn:Hp.
    + destruct pat as [|d pat']; [done |].
      destruct (prefix_split _ _ Hp) as [rest Hrest].
      rewrite append_cons in Hrest. injection Hrest as -> ->.
      change (GetSubstitution (String d pat') before
                (String.substring (String.length (String d pat'))
                   (String.length (String d (pat' +:+ rest))
                    - String.length (String d pat'))
                   (String d (pat' +:+ rest))) "$&")
        with (String d pat' +:+ "").
      replace (String.length (String d pat') - 1)%nat with (String.length pat')
        by (cbn [String.length]; lia).
      rewrite scan_skip_any, append_nil_r, append_cons. f_equal. f_equal.
      apply IH. cbn [String.length] in Hn. rewrite length_append in Hn. lia.
    + f_equal. apply IH. cbn [String.length] in Hn. lia.
Qed.

(** ** File names, continued *)

Lemma generateImageFileName_result {W R : Type} (api : Collaborators W R)
    (adGroupId adGroupName : string) (st : State W) :
  exists trimmed,
    generateImageFileName api adGroupId adGroupName st
      = Done (adGroupId +:+ "|" +:+ trimmed +:+ "|"
              +:+ Z_toString (fst (Date_now api (snd (Date_now api (world st))))))
          (mkState (props st) (triggers st)
             (snd (Date_now api (snd (Date_now api (world st))))) (trace st)) /\
    String.prefix trimmed (replaceAll adGroupName "/" "") = true /\
    occurs "/" trimmed = false.
Proof.
  unfold generateImageFileName, bind, now, ret.
  destruct (Date_now api (world st)) as [t1 w1]; simpl.
  destruct (Date_now api w1) as [t2 w2]; simpl.
  eexists. split; [reflexivity |]. split.
  - apply substring_0_prefix.
  - apply substring_0_occurs, replaceAll_scan_slash_free.
Qed.

(** X1.  [generateImageFileName] returns id|name|timestamp where the
    name part is a prefix of the ad group name without its slashes and
    the timestamp is the second of two clock readings; it changes
    nothing but the clock. *)
Theorem generateImageFileName_format {W R : Type} (api : Collaborators W R)
    (adGroupId adGroupName : string) (st : State W) :
  exists trimmed,
    generateImageFileName api adGroupId adGroupName st
      = Done (adGroupId +:+ "|" +:+ trimmed +:+ "|"
              +:+ Z_toString (fst (Date_now api (snd (Date_now api (world st))))))
          (mkState (props st) (triggers st)
             (snd (Date_now api (snd (Date_now api (world st))))) (trace st)) /\
    String.prefix trimmed (replaceAll adGroupName "/" "") = true /\
    occurs "/" trimmed = false.
Proof. apply generateImageFileName_result. Qed.

(** X2.  When the identifier and the first clock reading leave room
    for the two separators within 128 characters and the second clock
    reading prints no longer than the first, the file name is at most
    128 characters long. *)
Theorem generateImageFileName_within_limit {W R : Type} (api : Collaborators W R)
    (adGroupId adGroupName fileName : string) (st st' : State W) :
  (String.length adGroupId
   + String.length (Z_toString (fst (Date_now api (world st)))) + 2 <= 128)%nat ->
  (String.length (Z_toString (fst (Date_now api (snd (Date_now api (world st))))))
   <= String.length (Z_toString (fst (Date_now api (world st)))))%nat ->
  generateImageFileName api adGroupId adGroupName st = Done fileName st' ->
  (String.length fileName <= 128)%nat.
Proof.
  intros Hroom Hsecond.
  unfold generateImageFileName, bind, now, ret.
  destruct (Date_now api (world st)) as [t1 w1]; simpl in *.
  destruct (Date_now api w1) as [t2 w2]; simpl in *.
  intros [= <- _].
  rewrite !length_append. cbn [String.length].
  match goal with
  | |- context [String.length (slice0 ?s ?e)] =>
      pose proof (slice0_length s e ltac:(lia))
  end.
  lia.
Qed.

(** X3.  A name that fits is not cut: when the identifier, the first
    clock reading, the two separators and the name without its slashes
    take at most 128 characters together, the name part of the file
    name is the whole name without its slashes. *)
Theorem generateImageFileName_keeps_short_name {W R : Type} (api : Collaborators W R)
    (adGroupId adGroupName : string) (st : State W) :
  (String.length adGroupId
   + String.length (Z_toString (fst (Date_now api (world st)))) + 2
   + String.length (replaceAll adGroupName "/" "") <= 128)%nat ->
  exists st',
    generateImageFileName api adGroupId adGroupName st
      = Done (adGroupId +:+ "|" +:+ replaceAll adGroupName "/" "" +:+ "|"
              +:+ Z_toString (fst (Date_now api (snd (Date_now api (world st))))))
          st'.
Proof.
  intros Hroom.
  unfold generateImageFileName, bind, now, ret.
  destruct (Date_now api (world st)) as [t1 w1]; simpl in *.
  destruct (Date_now api w1) as [t2 w2]; simpl in *.
  unfold slice0.
  match goal with
  | |- context [if ?e <? 0 then _ else _] => destruct (Z.ltb_spec e 0); [lia |]
  end.
  rewrite substring_0_all by lia. by eexists.
Qed.

(** ** Prompts, continued *)

(** X4.  Entries whose placeholder does not occur in the configured
    template leave it as it is, whatever their values. *)
Theorem createPrompt_absent_keys (CONFIG : Config) (obj : list (string * string)) :
  (forall key value,
     (key, value) ∈ obj ->
     contains ("${" +:+ key +:+ "}") (ImgGen_Prompt CONFIG) = false) ->
  createPrompt CONFIG obj = ImgGen_Prompt CONFIG.
Proof.
  unfold createPrompt. generalize (ImgGen_Prompt CONFIG) as template.
  induction obj as [|[key value] obj IH]; intros template Habsent; [done |].
  cbn [fold_left]. unfold replaceAll at 2.
  rewrite replaceAll_scan_absent by (eapply Habsent; apply list_elem_of_here).
  apply IH. intros k v Hin. eapply Habsent. by apply list_elem_of_further.
Qed.

(** X5.  A value that is the replacement pattern [$&] is not inserted:
    every placeholder of its key is replaced by itself, so the prompt
    is the configured template, whatever the template and the key. *)
Theorem createPrompt_matched_pattern (CONFIG : Config) (key : string) :
  createPrompt CONFIG [(key, "$&")] = ImgGen_Prompt CONFIG.
Proof.
  unfold createPrompt. cbn [fold_left]. unfold replaceAll.
  apply (replaceAll_scan_self _ (String.length (ImgGen_Prompt CONFIG))); [done | lia].
Qed.

(** ** Keywords *)

Lemma dedup_from_spec (l seen : list string) :
  NoDup (dedup_from seen l) /\
  (forall x, x ∈ dedup_from seen l <-> x ∈ l /\ x ∉ seen) /\
  sublist (dedup_from seen l) l.
Proof.
  revert seen. induction l as [|y l IH]; intros seen.
  - split; [constructor |]. split; [| done].
    intros x. split; [by intros ?%elem_of_nil | by intros [?%elem_of_nil _]].
  - cbn [dedup_from]. case_bool_decide as Hy.
    + destruct (IH seen) as (Hnd & Hin & Hsub).
      split; [done |]. split; [| by apply sublist_cons].
      intros x. rewrite Hin, elem_of_cons. split; [tauto |].
      intros [[-> | Hx] Hseen]; [done | tauto].
    + destruct (IH (y :: seen)) as (Hnd & Hin & Hsub).
      split; [| split; [| by apply sublist_skip]].
      * apply NoDup_cons. split; [| done].
        rewrite Hin, elem_of_cons. tauto.
      * intros x. rewrite !elem_of_cons, Hin, elem_of_cons.
        split.
        -- intros [-> | [Hx Hseen]]; [tauto |]. split; [tauto |].
           intros Hs. apply Hseen. tauto.
        -- intros [[-> | Hx] Hseen]; [tauto |].
           destruct (decide (x = y)) as [-> | Hne]; [tauto |].
           right. split; [done |]. intros [? | ?]; tauto.
Qed.

Lemma dedup_from_first_occurrences (l seen : list string) :
  dedup_from seen l = filter (fun y => y ∉ seen) (first_occurrences l).
Proof.
  revert seen. induction l as [|x l IH]; intros seen; [done |].
  cbn [dedup_from first_occurrences]. rewrite filter_cons.
  case_bool_decide as Hx.
  - rewrite decide_False by tauto.
    rewrite IH, list_filter_filter. apply list_filter_iff.
    intros y. split; [| tauto]. intros Hy. split; [done |]. by intros ->.
  - rewrite decide_True by done. f_equal.
    rewrite IH, list_filter_filter. apply list_filter_iff.
    intros y. rewrite not_elem_of_cons. tauto.
Qed.

Lemma dedup_first_occurrences (l : list string) : dedup l = first_occurrences l.
Proof.
  unfold dedup. rewrite dedup_from_first_occurrences.
  induction (first_occurrences l) as [|y l' IH]; [done |].
  rewrite filter_cons_True by apply not_elem_of_nil. by rewrite IH.
Qed.

(** X6.  In KEYWORDS mode the text [run] makes of the keywords of an
    ad group is their texts joined by commas, each text once, at the
    place of its first occurrence: of two equal texts the later one is
    dropped.  When there is no keyword the pass ends in the [continue].
    The step fetches the keywords once, logs, and changes neither the
    script properties nor the triggers. *)
Theorem keywords_joined_first_occurrences {W R : Type} (api : Collaborators W R)
    (CONFIG : Config) (row : AdGroupRow) (st : State W) (keywords : list string)
    (w : W) :
  Adios_Mode CONFIG = KEYWORDS ->
  getKeywordsForAdGroup api (adGroup_id (adGroup row)) (world st) = (keywords, w) ->
  exists st',
    build_gAdsData api CONFIG row st
      = Done (match first_occurrences keywords with
              | [] => None
              | _ :: _ => Some (String.concat "," (first_occurrences keywords))
              end) st' /\
    NoDup (first_occurrences keywords) /\
    (forall keyword, keyword ∈ first_occurrences keywords <-> keyword ∈ keywords) /\
    keyword_fetches (trace st') = S (keyword_fetches (trace st)) /\
    world st' = w /\ props st' = props st /\ triggers st' = triggers st.
Proof.
  intros Hmode Hkw.
  destruct (dedup_from_spec keywords []) as (Hnd & Hin & _).
  fold (dedup keywords) in Hnd, Hin. rewrite dedup_first_occurrences in Hnd, Hin.
  unfold build_gAdsData. rewrite Hmode. unfold bind at 1, call. rewrite Hkw.
  rewrite dedup_first_occurrences.
  unfold bind, Logger_log, emit, ret. cbn [props triggers world trace].
  destruct (first_occurrences keywords) as [|k kw] eqn:Hfirst;
    (eexists; split; [reflexivity |]);
    (split; [exact Hnd |]);
    (split; [| by repeat split]);
    intros x; rewrite Hin; (split; [tauto |]);
    intros Hx; (split; [done | apply not_elem_of_nil]).
Qed.

(** ** Invariants of a whole run *)

(** A primitive step, run on an arbitrary state. *)
Ltac run_prim :=
  let H := fresh "H" in
  intros ? ? ? H;
  unfold now, emit, call, Logger_log, console_error, getProperty, setProperty,
    deleteProperty, deleteTrigger, createTriggerForNextRun in H;
  repeat match type of H with
    | context [let (_, _) := ?x in _] => destruct x
    end;
  injection H as <- <-.

(** A composite step: follow its structure down to the primitives,
    which [fin] has to settle. *)
Ltac walk_keeps refl trans fin :=
  repeat match goal with
    | |- keeps _ (bind _ _) => apply keeps_bind; [exact trans | | intros ?]
    | |- keeps _ (ret _) => apply keeps_ret; exact refl
    | |- keeps _ (throw _) => apply keeps_throw
    | |- keeps _ (match ?x with _ => _ end) => destruct x
    | |- keeps _ _ => solve [run_prim; fin]
    end.

Section RunKeeps.

Context {W R : Type}.
Variable api : Collaborators W R.
Variable CONFIG : Config.

(** A relation between states that every step [run] can take
    respects. *)
Variable Rel : State W -> State W -> Prop.
Hypothesis Rel_refl : forall st, Rel st st.
Hypothesis Rel_trans : forall st1 st2 st3, Rel st1 st2 -> Rel st2 st3 -> Rel st1 st3.
Hypothesis Rel_now : keeps Rel (now api).
Hypothesis Rel_log : forall msg, keeps Rel (Logger_log msg).
Hypothesis Rel_gAdsData : forall row, keeps Rel (build_gAdsData api CONFIG row).
Hypothesis Rel_imgPrompt : forall gAdsData, keeps Rel (build_imgPrompt api CONFIG gAdsData).
Hypothesis Rel_vision :
  forall imgPrompt remaining,
    keeps Rel
      (call (EvVision imgPrompt (Z.min (VISION_API_LIMIT api) remaining))
         (callVisionApi api imgPrompt (Z.min (VISION_API_LIMIT api) remaining))).
Hypothesis Rel_upload :
  forall image filename folder,
    keeps Rel
      (call (EvUpload image filename folder)
         (fun w => (tt, uploadImage api image filename folder w))).
Hypothesis Rel_count :
  forall customerId adGroupId dirs,
    keeps Rel
      (call (EvCountImages customerId adGroupId dirs)
         (countImages api customerId adGroupId dirs)).
Hypothesis Rel_set : forall value, keeps Rel (setProperty cursorKey value).
Hypothesis Rel_delete : keeps Rel (deleteProperty cursorKey).
Hypothesis Rel_create : keeps Rel createTriggerForNextRun.
Hypothesis Rel_cancel : keeps Rel deleteTrigger.
Hypothesis Rel_adGroups : keeps Rel (call EvGetAdGroups (getAdGroups api)).

Ltac follow :=
  repeat match goal with
    | |- keeps _ (bind _ _) => apply keeps_bind; [exact Rel_trans | | intros ?]
    | |- keeps _ (ret _) => apply keeps_ret; exact Rel_refl
    | |- keeps _ (throw _) => apply keeps_throw
    | |- keeps _ (match ?x with _ => _ end) => destruct x
    | |- keeps _ _ =>
        first [ apply Rel_now | apply Rel_log | apply Rel_gAdsData | apply Rel_imgPrompt
              | apply Rel_vision | apply Rel_upload | apply Rel_count | apply Rel_set
              | exact Rel_delete | exact Rel_create | exact Rel_cancel
              | exact Rel_adGroups | assumption ]
    end.

Lemma shouldTerminate_keeps : keeps Rel (shouldTerminate api).
Proof.
  intros st b st' H. rewrite shouldTerminate_eq in H. injection H as _ <-.
  apply (Rel_now st (fst (Date_now api (world st)))).
  unfold now. by destruct (Date_now api (world st)).
Qed.

Lemma generateImageFileName_keeps (adGroupId adGroupName : string) :
  keeps Rel (generateImageFileName api adGroupId adGroupName).
Proof. unfold generateImageFileName. follow. Qed.

Lemma upload_images_keeps (row : AdGroupRow) (images : list string) :
  keeps Rel (upload_images api CONFIG row images).
Proof.
  induction images as [|image rest IH]; cbn [upload_images]; follow.
  apply generateImageFileName_keeps.
Qed.

Lemma generate_loop_keeps (fuel : nat) (row : AdGroupRow) (adGroupImgCount : Z) :
  forall g t, keeps Rel (generate_loop api CONFIG fuel row adGroupImgCount g t).
Proof.
  induction fuel as [|fuel IH]; intros g t; rewrite generate_loop_unfold.
  - destruct (_ && _); [intros st a st' [=] | follow].
  - destruct (_ && _); [| follow]. cbv zeta. follow; try apply IH.
    apply upload_images_keeps.
Qed.

Lemma process_adGroup_keeps (fuel : nat) (row : AdGroupRow) :
  keeps Rel (process_adGroup api CONFIG fuel row).
Proof.
  unfold process_adGroup.
  apply keeps_bind; [exact Rel_trans | apply shouldTerminate_keeps | intros terminate].
  follow. apply generate_loop_keeps.
Qed.

Lemma for_loop_keeps (n fuel : nat) (adGroups : list AdGroupRow) :
  forall i, keeps Rel (for_loop api CONFIG n fuel adGroups i).
Proof.
  induction n as [|n IH]; intros i; rewrite for_loop_unfold.
  - destruct (_ <? _); [intros st a st' [=] | follow].
  - destruct (_ <? _); [| follow].
    destruct (index_get adGroups i) as [row|].
    + apply keeps_bind; [exact Rel_trans | apply process_adGroup_keeps | intros c].
      destruct c; [apply IH | follow].
    + apply keeps_bind; [exact Rel_trans | apply shouldTerminate_keeps | intros _].
      apply keeps_throw.
Qed.

Lemma run_keeps (fuel : nat) : keeps Rel (run api CONFIG fuel).
Proof.
  unfold run.
  apply keeps_bind; [exact Rel_trans | exact Rel_cancel | intros _].
  apply keeps_bind; [exact Rel_trans | exact Rel_adGroups | intros adGroups].
  apply keeps_bind; [exact Rel_trans | | intros cursor].
  { intros st a st' [= _ <-]. apply Rel_refl. }
  apply keeps_bind; [exact Rel_trans | apply for_loop_keeps | intros c].
  follow.
Qed.

End RunKeeps.

Lemma same_other_props_refl {W : Type} (st : State W) : same_other_props st st.
Proof. by intros key _. Qed.

Lemma same_other_props_trans {W : Type} (st1 st2 st3 : State W) :
  same_other_props st1 st2 -> same_other_props st2 st3 -> same_other_props st1 st3.
Proof. intros H12 H23 key Hkey. by rewrite H23, H12. Qed.

Ltac other_props_prim :=
  intros ? ?; cbn [props];
  try rewrite lookup_insert_ne by done; try rewrite lookup_delete_ne by done;
  reflexivity.

(** X7.  [run] writes no script property but the cursor: every other
    key, the run-start timestamp among them, holds after [run] what it
    held before. *)
Theorem run_other_properties_untouched {W R : Type} (api : Collaborators W R)
    (CONFIG : Config) (fuel : nat) (st st' : State W) (c : completion) (key : string) :
  run api CONFIG fuel st = Done c st' ->
  key <> cursorKey ->
  props st' !! key = props st !! key.
Proof.
  intros Hrun Hkey. revert key Hkey. change (same_other_props st st').
  revert Hrun. apply (run_keeps api CONFIG same_other_props);
    try exact same_other_props_refl; try exact same_other_props_trans;
    try (intros; run_prim; other_props_prim).
  - intros row. unfold build_gAdsData.
    walk_keeps (@same_other_props_refl W) (@same_other_props_trans W) other_props_prim.
  - intros gAdsData. unfold build_imgPrompt.
    walk_keeps (@same_other_props_refl W) (@same_other_props_trans W) other_props_prim.
Qed.

Lemma no_text_calls_refl {W : Type} (st : State W) : no_text_calls st st.
Proof. by split. Qed.

Lemma no_text_calls_trans {W : Type} (st1 st2 st3 : State W) :
  no_text_calls st1 st2 -> no_text_calls st2 st3 -> no_text_calls st1 st3.
Proof. unfold no_text_calls. intros [? ?] [? ?]. split; congruence. Qed.

(** *** Runs that throw *)

Section Leaves.

Context {W : Type}.
Variable Rel : State W -> State W -> Prop.
Hypothesis Rel_refl : forall st, Rel st st.
Hypothesis Rel_trans : forall st1 st2 st3, Rel st1 st2 -> Rel st2 st3 -> Rel st1 st3.

Lemma leaves_ret {A} (a : A) : leaves Rel (ret a).
Proof. intros st. apply Rel_refl. Qed.

Lemma leaves_throw {A} (e : JsError) : leaves Rel (@throw W A e).
Proof. intros st. apply Rel_refl. Qed.

Lemma leaves_out_of_fuel {A} : leaves Rel (fun _ : State W => @OutOfFuel W A).
Proof. by intros st. Qed.

Lemma leaves_bind {A B} (m : M W A) (k : A -> M W B) :
  leaves Rel m -> (forall a, leaves Rel (k a)) -> leaves Rel (bind m k).
Proof.
  intros Hm Hk st. unfold bind. specialize (Hm st).
  destruct (m st) as [a st1|e st1|]; [| exact Hm | exact I].
  specialize (Hk a st1).
  destruct (k a st1) as [b st2|e st2|]; [| | exact I]; by eapply Rel_trans.
Qed.

(** A step that always returns leaves what it keeps. *)
Lemma keeps_leaves {A} (m : M W A) :
  (forall st, exists a st', m st = Done a st') -> keeps Rel m -> leaves Rel m.
Proof.
  intros Htotal Hm st. destruct (Htotal st) as (a & st' & Hst).
  rewrite Hst. by eapply Hm.
Qed.

End Leaves.

(** A primitive step returns. *)
Ltac prim_total :=
  intros ?;
  unfold now, emit, call, Logger_log, console_error, getProperty, setProperty,
    deleteProperty, deleteTrigger, createTriggerForNextRun;
  repeat match goal with
    | |- context [let (_, _) := ?x in _] => destruct x
    end;
  by eexists _, _.

Section RunLeaves.

Context {W R : Type}.
Variable api : Collaborators W R.
Variable CONFIG : Config.

(** A relation between states that every step [run] can take
    respects, whether the step returns or throws. *)
Variable Rel : State W -> State W -> Prop.
Hypothesis Rel_refl : forall st, Rel st st.
Hypothesis Rel_trans : forall st1 st2 st3, Rel st1 st2 -> Rel st2 st3 -> Rel st1 st3.
Hypothesis Rel_now : keeps Rel (now api).
Hypothesis Rel_log : forall msg, keeps Rel (Logger_log msg).
Hypothesis Rel_gAdsData : forall row, leaves Rel (build_gAdsData api CONFIG row).
Hypothesis Rel_imgPrompt : forall gAdsData, leaves Rel (build_imgPrompt api CONFIG gAdsData).
Hypothesis Rel_vision :
  forall imgPrompt remaining,
    keeps Rel
      (call (EvVision imgPrompt (Z.min (VISION_API_LIMIT api) remaining))
         (callVisionApi api imgPrompt (Z.min (VISION_API_LIMIT api) remaining))).
Hypothesis Rel_upload :
  forall image filename folder,
    keeps Rel
      (call (EvUpload image filename folder)
         (fun w => (tt, uploadImage api image filename folder w))).
Hypothesis Rel_count :
  forall customerId adGroupId dirs,
    keeps Rel
      (call (EvCountImages customerId adGroupId dirs)
         (countImages api customerId adGroupId dirs)).
Hypothesis Rel_set : forall value, keeps Rel (setProperty cursorKey value).
Hypothesis Rel_delete : keeps Rel (deleteProperty cursorKey).
Hypothesis Rel_create : keeps Rel createTriggerForNextRun.
Hypothesis Rel_cancel : keeps Rel deleteTrigger.
Hypothesis Rel_adGroups : keeps Rel (call EvGetAdGroups (getAdGroups api)).

Ltac prim_leaves :=
  apply keeps_leaves;
  [ prim_total
  | first [ apply Rel_now | apply Rel_log | apply Rel_vision | apply Rel_upload
          | apply Rel_count | apply Rel_set | exact Rel_delete | exact Rel_create
          | exact Rel_cancel | exact Rel_adGroups ] ].

Ltac follow_leaves :=
  repeat match goal with
    | |- leaves _ (bind _ _) => apply leaves_bind; [exact Rel_trans | | intros ?]
    | |- leaves _ (ret _) => apply leaves_ret; exact Rel_refl
    | |- leaves _ (throw _) => apply leaves_throw; exact Rel_refl
    | |- leaves _ (fun _ => OutOfFuel) => apply leaves_out_of_fuel
    | |- leaves _ (match ?x with _ => _ end) => destruct x
    | |- leaves _ _ =>
        first [ apply Rel_gAdsData | apply Rel_imgPrompt | assumption | prim_leaves ]
    end.

Lemma shouldTerminate_leaves : leaves Rel (shouldTerminate api).
Proof.
  intros st. rewrite shouldTerminate_eq.
  apply (Rel_now st (fst (Date_now api (world st)))).
  unfold now. by destruct (Date_now api (world st)).
Qed.

Lemma generateImageFileName_leaves (adGroupId adGroupName : string) :
  leaves Rel (generateImageFileName api adGroupId adGroupName).
Proof. unfold generateImageFileName. follow_leaves. Qed.

Lemma upload_images_leaves (row : AdGroupRow) (images : list string) :
  leaves Rel (upload_images api CONFIG row images).
Proof.
  induction images as [|image rest IH]; cbn [upload_images]; follow_leaves.
  apply generateImageFileName_leaves.
Qed.

Lemma generate_loop_leaves (fuel : nat) (row : AdGroupRow) (adGroupImgCount : Z) :
  forall g t, leaves Rel (generate_loop api CONFIG fuel row adGroupImgCount g t).
Proof.
  induction fuel as [|fuel IH]; intros g t; rewrite generate_loop_unfold.
  - destruct (_ && _); follow_leaves.
  - destruct (_ && _); [| follow_leaves]. cbv zeta. follow_leaves; try apply IH.
    apply upload_images_leaves.
Qed.

Lemma process_adGroup_leaves (fuel : nat) (row : AdGroupRow) :
  leaves Rel (process_adGroup api CONFIG fuel row).
Proof.
  unfold process_adGroup.
  apply leaves_bind; [exact Rel_trans | apply shouldTerminate_leaves | intros terminate].
  follow_leaves. apply generate_loop_leaves.
Qed.

Lemma for_loop_leaves (n fuel : nat) (adGroups : list AdGroupRow) :
  forall i, leaves Rel (for_loop api CONFIG n fuel adGroups i).
Proof.
  induction n as [|n IH]; intros i; rewrite for_loop_unfold.
  - destruct (_ <? _); follow_leaves.
  - destruct (_ <? _); [| follow_leaves].
    destruct (index_get adGroups i) as [row|].
    + apply leaves_bind; [exact Rel_trans | apply process_adGroup_leaves | intros c].
      destruct c; [apply IH | follow_leaves].
    + apply leaves_bind; [exact Rel_trans | apply shouldTerminate_leaves | intros _].
      apply leaves_throw. exact Rel_refl.
Qed.

Lemma run_leaves (fuel : nat) : leaves Rel (run api CONFIG fuel).
Proof.
  unfold run.
  apply leaves_bind; [exact Rel_trans | prim_leaves | intros _].
  apply leaves_bind; [exact Rel_trans | prim_leaves | intros adGroups].
  apply leaves_bind; [exact Rel_trans | | intros cursor].
  { intros st. apply Rel_refl. }
  apply leaves_bind; [exact Rel_trans | apply for_loop_leaves | intros c].
  follow_leaves.
Qed.

End RunLeaves.

(** A composite step: follow its structure down to the primitives,
    which return and which [fin] has to settle. *)
Ltac walk_leaves refl trans fin :=
  repeat match goal with
    | |- leaves _ (bind _ _) => apply leaves_bind; [exact trans | | intros ?]
    | |- leaves _ (ret _) => apply leaves_ret; exact refl
    | |- leaves _ (throw _) => apply leaves_throw; exact refl
    | |- leaves _ (match ?x with _ => _ end) => destruct x
    | |- leaves _ _ => apply keeps_leaves; [prim_total | solve [run_prim; fin]]
    end.

(** X8.  In AD_GROUP mode [run] never calls the Gemini API and never
    queries keywords, whether it returns or throws: the prompt comes
    from the ad group name and the configured template alone. *)
Theorem run_ad_group_mode_no_text_calls {W R : Type} (api : Collaborators W R)
    (CONFIG : Config) (fuel : nat) (st : State W) :
  Adios_Mode CONFIG = AD_GROUP ->
  match run api CONFIG fuel st with
  | Done _ st' | Throw _ st' =>
      gemini_calls (trace st') = gemini_calls (trace st) /\
      keyword_fetches (trace st') = keyword_fetches (trace st)
  | OutOfFuel => True
  end.
Proof.
  intros Hmode.
  assert (leaves no_text_calls (run api CONFIG fuel)) as Hrun.
  { apply (run_leaves api CONFIG no_text_calls);
      try exact no_text_calls_refl; try exact no_text_calls_trans;
      try (intros; run_prim; by split).
    - intros row. unfold build_gAdsData. rewrite Hmode.
      walk_leaves (@no_text_calls_refl W) (@no_text_calls_trans W) ltac:(by split).
    - intros gAdsData. unfold build_imgPrompt. rewrite Hmode.
      walk_leaves (@no_text_calls_refl W) (@no_text_calls_trans W) ltac:(by split). }
  specialize (Hrun st). by destruct (run api CONFIG fuel st).
Qed.

Lemma batches_within_refl {W : Type} (limit : Z) (st : State W) :
  batches_within limit st st.
Proof. by intros H. Qed.

Lemma batches_within_trans {W : Type} (limit : Z) (st1 st2 st3 : State W) :
  batches_within limit st1 st2 -> batches_within limit st2 st3 ->
  batches_within limit st1 st3.
Proof. unfold batches_within. auto. Qed.

(** X9.  [run] never asks the Vision API for more than
    VISION_API_LIMIT images in one call. *)
Theorem run_batches_within_limit {W R : Type} (api : Collaborators W R)
    (CONFIG : Config) (fuel : nat) (st st' : State W) (c : completion) :
  run api CONFIG fuel st = Done c st' ->
  Forall (fun imgCount => imgCount <= VISION_API_LIMIT api) (vision_sizes (trace st)) ->
  Forall (fun imgCount => imgCount <= VISION_API_LIMIT api) (vision_sizes (trace st')).
Proof.
  intros Hrun. change (batches_within (VISION_API_LIMIT api) st st').
  revert Hrun. apply (run_keeps api CONFIG (batches_within (VISION_API_LIMIT api)));
    try exact (batches_within_refl _); try exact (batches_within_trans _);
    try (intros; run_prim; by intros ?).
  - intros row. unfold build_gAdsData.
    walk_keeps (@batches_within_refl W (VISION_API_LIMIT api))
      (@batches_within_trans W (VISION_API_LIMIT api)) ltac:(by intros ?).
  - intros gAdsData. unfold build_imgPrompt.
    walk_keeps (@batches_within_refl W (VISION_API_LIMIT api))
      (@batches_within_trans W (VISION_API_LIMIT api)) ltac:(by intros ?).
  - intros imgPrompt remaining. run_prim. intros Hall. cbn [trace vision_sizes].
    apply Forall_cons. split; [apply Z.le_min_l | exact Hall].
Qed.

(** ** Uploads and the loop of attempts *)

Section Attempts.

Context {W R : Type}.
Variable api : Collaborators W R.
Variable CONFIG : Config.

Lemma upload_images_total (row : AdGroupRow) (images : list string) (st : State W) :
  exists st',
    upload_images api CONFIG row images st = Done tt st' /\
    uploaded (trace st')
      = rev (map (fun image => (image, generated_folder CONFIG row)) images)
        ++ uploaded (trace st) /\
    uploads (trace st') = (length images + uploads (trace st))%nat /\
    generation_calls (trace st') = generation_calls (trace st) /\
    props st' = props st.
Proof.
  revert st. induction images as [|image rest IH]; intros st.
  - exists st. by repeat split.
  - cbn [upload_images]. unfold bind at 1.
    destruct (generateImageFileName_result api (adGroup_id (adGroup row))
                (adGroup_name (adGroup row)) st) as (trimmed & -> & _ & _).
    unfold bind at 1, call at 1. cbn [world props triggers trace].
    match goal with
    | |- exists st', upload_images _ _ _ _ ?s = _ /\ _ =>
        destruct (IH s) as (st' & Hrest & Hlist & Hcount & Hcalls & Hprops)
    end.
    exists st'. split; [exact Hrest |].
    cbn [trace uploaded uploads generation_calls props] in Hlist, Hcount, Hcalls, Hprops.
    split; [| split; [| by split]].
    + rewrite Hlist. cbn [map rev]. by rewrite <- app_assoc.
    + rewrite Hcount. cbn [length]. lia.
Qed.

(** X10.  Every image the Vision API returns in a batch is uploaded
    exactly once, in the order received, to the folder
    customer/ad group/Generated DIR; nothing else is uploaded and the
    script properties stay as they are. *)
Theorem upload_images_each_once (row : AdGroupRow) (images : list string) (st : State W) :
  exists st',
    upload_images api CONFIG row images st = Done tt st' /\
    uploaded (trace st')
      = rev (map (fun image => (image, generated_folder CONFIG row)) images)
        ++ uploaded (trace st) /\
    props st' = props st.
Proof.
  destruct (upload_images_total row images st) as (st' & H & Hlist & _ & _ & Hprops).
  by exists st'.
Qed.

(** When a request text is available the loop of attempts ends: each
    pass either counts a try or adds at least one image. *)
Lemma generate_loop_terminates (row : AdGroupRow) (adGroupImgCount : Z) :
  prompt_available api CONFIG row ->
  forall (fuel : nat) (g t : Z) (st : State W),
    (Z.to_nat (adGroupImgCount - g) + Z.to_nat (MAX_TRIES + 1 - t) <= fuel)%nat ->
    exists st',
      generate_loop api CONFIG fuel row adGroupImgCount g t st = Done tt st' /\
      props st' = props st /\
      (generation_calls (trace st')
       <= generation_calls (trace st)
          + Z.to_nat (adGroupImgCount - g) + Z.to_nat (MAX_TRIES + 1 - t))%nat /\
      (adGroupImgCount - g
         <= Z.of_nat (uploads (trace st')) - Z.of_nat (uploads (trace st)) \/
       MAX_TRIES + 1 - t
         <= Z.of_nat (generation_calls (trace st'))
            - Z.of_nat (generation_calls (trace st))).
Proof.
  intros Ha. unfold MAX_TRIES.
  induction fuel as [|fuel IH]; intros g t st Hfuel; rewrite generate_loop_unfold;
    unfold MAX_TRIES;
    destruct (Z.ltb_spec g adGroupImgCount); destruct (Z.leb_spec t 3); cbn [andb];
    try (exists st; split; [reflexivity |]; split; [reflexivity |]; split; lia).
  - lia.
  - cbv zeta.
    destruct (build_gAdsData_available api CONFIG row st Ha) as (gAds & st1 & Hg & Hq1).
    unfold bind at 1. rewrite Hg.
    destruct (build_imgPrompt_total api CONFIG gAds st1) as (p & st2 & Hp & Hq2).
    unfold bind at 1. rewrite Hp.
    unfold bind at 1, Logger_log at 1, emit at 1.
    unfold bind at 1, call at 1. cbn [world].
    destruct (callVisionApi api p _ (world st2)) as [images w].
    unfold bind at 1, Logger_log at 1, emit at 1.
    cbn [props triggers world trace].
    destruct Hq1 as (Hp1 & _ & Hc1 & Hu1). destruct Hq2 as (Hp2 & _ & Hc2 & Hu2).
    assert (forall s : State W,
              props s = props st ->
              generation_calls (trace s) = S (generation_calls (trace st)) ->
              uploads (trace s) = uploads (trace st) ->
              exists st',
                generate_loop api CONFIG fuel row adGroupImgCount g (t + 1) s
                  = Done tt st' /\
                props st' = props st /\
                (generation_calls (trace st')
                 <= generation_calls (trace st)
                    + Z.to_nat (adGroupImgCount - g) + Z.to_nat (3 + 1 - t))%nat /\
                (adGroupImgCount - g
                   <= Z.of_nat (uploads (trace st')) - Z.of_nat (uploads (trace st)) \/
                 3 + 1 - t
                   <= Z.of_nat (generation_calls (trace st'))
                      - Z.of_nat (generation_calls (trace st)))) as Hretry.
    { intros s Hs Hcs Hus.
      destruct (IH g (t + 1) s) as (st' & Hloop & Hprops & Hcalls & Hexit); [lia |].
      exists st'. split; [exact Hloop |]. split; [congruence |]. split; lia. }
    destruct images as [[|image rest]|].
    + apply Hretry; cbn [props trace generation_calls uploads]; congruence.
    + unfold bind at 1.
      match goal with
      | |- exists st', match upload_images _ _ _ ?imgs ?s with _ => _ end = _ /\ _ =>
          destruct (upload_images_total row imgs s)
            as (st3 & -> & _ & Hu3 & Hc3 & Hp3)
      end.
      cbn [props trace generation_calls uploads] in Hu3, Hc3, Hp3.
      destruct (IH (g + Z.of_nat (length (image :: rest))) t st3)
        as (st' & Hloop & Hprops & Hcalls & Hexit); [cbn [length]; lia |].
      exists st'. split; [exact Hloop |]. split; [congruence |].
      cbn [length] in *. split; lia.
    + apply Hretry; cbn [props trace generation_calls uploads]; congruence.
Qed.

End Attempts.

(** ** One row, in general *)

Section Rows.

Context {W R : Type}.
Variable api : Collaborators W R.
Variable CONFIG : Config.

Lemma process_adGroup_ends (fuel : nat) (row : AdGroupRow) (st : State W) :
  watchdog_trips api st = false ->
  prompt_available api CONFIG row ->
  (Z.to_nat (Number_of_images_per_Ad_Group CONFIG - existing_images api CONFIG row st) + 4
   <= fuel)%nat ->
  exists st',
    process_adGroup api CONFIG fuel row st = Done Normal st' /\
    props st' =
      (if existing_images api CONFIG row st >=? Number_of_images_per_Ad_Group CONFIG
       then props st
       else <[cursorKey := adGroup_id (adGroup row)]> (props st)) /\
    (generation_calls (trace st')
     <= generation_calls (trace st)
        + Z.to_nat (Number_of_images_per_Ad_Group CONFIG
                    - existing_images api CONFIG row st) + 4)%nat /\
    (Number_of_images_per_Ad_Group CONFIG - existing_images api CONFIG row st
       <= Z.of_nat (uploads (trace st')) - Z.of_nat (uploads (trace st)) \/
     4 <= Z.of_nat (generation_calls (trace st'))
          - Z.of_nat (generation_calls (trace st))).
Proof.
  intros Hw Ha Hfuel. rewrite process_adGroup_quiet_watchdog by done. cbv zeta.
  destruct (Z.geb_spec (existing_images api CONFIG row st)
              (Number_of_images_per_Ad_Group CONFIG)).
  - eexists. split; [reflexivity |]. cbn [props trace generation_calls uploads].
    split; [reflexivity |]. split; lia.
  - unfold bind at 1, Logger_log, emit. unfold bind at 1.
    match goal with
    | |- exists st', match generate_loop _ _ _ _ ?n 0 0 ?s with _ => _ end = _ /\ _ =>
        destruct (generate_loop_terminates api CONFIG row n Ha fuel 0 0 s)
          as (st1 & -> & Hprops & Hcalls & Hexit); [unfold MAX_TRIES; lia |]
    end.
    unfold bind, setProperty, ret. eexists. split; [reflexivity |].
    unfold MAX_TRIES in *. cbn [props trace generation_calls uploads] in *.
    rewrite Hprops. split; [reflexivity |]. split; lia.
Qed.

(** X11.  With the watchdog quiet and a request text available,
    processing a row always comes to a normal end, given fuel for as
    many passes as images are missing plus four.  It makes at most that
    many calls to the Vision API; when it ends the missing images have
    been uploaded or at least four calls were made; and the cursor is
    then the identifier of the row exactly when the row lacked
    images. *)
Theorem process_adGroup_completes (fuel : nat) (row : AdGroupRow) (st : State W) :
  watchdog_trips api st = false ->
  prompt_available api CONFIG row ->
  (Z.to_nat (Number_of_images_per_Ad_Group CONFIG - existing_images api CONFIG row st) + 4
   <= fuel)%nat ->
  exists st',
    process_adGroup api CONFIG fuel row st = Done Normal st' /\
    props st' =
      (if existing_images api CONFIG row st >=? Number_of_images_per_Ad_Group CONFIG
       then props st
       else <[cursorKey := adGroup_id (adGroup row)]> (props st)) /\
    (generation_calls (trace st')
     <= generation_calls (trace st)
        + Z.to_nat (Number_of_images_per_Ad_Group CONFIG
                    - existing_images api CONFIG row st) + 4)%nat /\
    (Number_of_images_per_Ad_Group CONFIG - existing_images api CONFIG row st
       <= Z.of_nat (uploads (trace st')) - Z.of_nat (uploads (trace st)) \/
     4 <= Z.of_nat (generation_calls (trace st'))
          - Z.of_nat (generation_calls (trace st))).
Proof. apply process_adGroup_ends. Qed.

(** The watchdog branch is the only one that returns. *)
Lemma process_adGroup_Return (fuel : nat) (row : AdGroupRow) (st st' : State W) :
  process_adGroup api CONFIG fuel row st = Done Return st' ->
  watchdog_trips api st = true /\
  props st' = <[cursorKey := adGroup_id (adGroup row)]> (props st) /\
  triggers st' = S (triggers st) /\
  generation_calls (trace st') = generation_calls (trace st) /\
  uploads (trace st') = uploads (trace st).
Proof.
  destruct (watchdog_trips api st) eqn:Hw.
  - unfold process_adGroup, bind at 1. rewrite shouldTerminate_eq, Hw.
    unfold bind, Logger_log, emit, setProperty, createTriggerForNextRun, ret.
    intros [= <-]. by repeat split.
  - rewrite process_adGroup_quiet_watchdog by done. cbv zeta.
    destruct (_ >=? _).
    + unfold bind, Logger_log, emit, ret. intros [=].
    + unfold bind, Logger_log, emit, setProperty, ret.
      destruct (generate_loop _ _ _ _ _ _ _ _); intros [=].
Qed.

Lemma generate_loop_uploads_bounded (row : AdGroupRow) (adGroupImgCount : Z) :
  0 <= VISION_API_LIMIT api ->
  (forall imgPrompt imgCount w,
     0 <= imgCount ->
     images_length (fst (callVisionApi api imgPrompt imgCount w)) <= imgCount) ->
  forall (fuel : nat) (g t : Z) (st st' : State W),
    g <= adGroupImgCount ->
    generate_loop api CONFIG fuel row adGroupImgCount g t st = Done tt st' ->
    Z.of_nat (uploads (trace st'))
    <= Z.of_nat (uploads (trace st)) + (adGroupImgCount - g).
Proof.
  intros Hlimit Hhonest.
  induction fuel as [|fuel IH]; intros g t st st' Hg; rewrite generate_loop_unfold;
    destruct (Z.ltb_spec g adGroupImgCount); destruct (Z.leb_spec t MAX_TRIES);
    cbn [andb]; try (intros [= <-]; lia); try discriminate.
  cbv zeta. unfold bind at 1.
  destruct (build_gAdsData api CONFIG row st) as [[gAds|] st1| |] eqn:Hbuild;
    try discriminate.
  - apply build_gAdsData_quiet in Hbuild as (_ & _ & _ & Hu1).
    unfold bind at 1.
    destruct (build_imgPrompt api CONFIG gAds st1) as [p st2| |] eqn:Hprompt;
      try discriminate.
    apply build_imgPrompt_quiet in Hprompt as (_ & _ & _ & Hu2).
    unfold bind at 1, Logger_log at 1, emit at 1.
    unfold bind at 1, call at 1. cbn [world].
    specialize (Hhonest p (Z.min (VISION_API_LIMIT api) (adGroupImgCount - g)) (world st2)
                  ltac:(lia)).
    destruct (callVisionApi api p _ (world st2)) as [images w].
    unfold bind at 1, Logger_log at 1, emit at 1.
    cbn [props triggers world trace fst] in *.
    destruct images as [[|image rest]|].
    + intros Hloop. apply IH in Hloop; [| lia].
      cbn [trace uploads] in Hloop. lia.
    + unfold bind at 1.
      match goal with
      | |- match upload_images _ _ _ ?imgs ?s with _ => _ end = _ -> _ =>
          destruct (upload_images_total api CONFIG row imgs s)
            as (st3 & -> & _ & Hu3 & _ & _)
      end.
      cbn [images_length] in Hhonest. cbn [trace uploads] in Hu3.
      intros Hloop. apply IH in Hloop; lia.
    + intros Hloop. apply IH in Hloop; [| lia].
      cbn [trace uploads] in Hloop. lia.
  - apply build_gAdsData_quiet in Hbuild as (_ & _ & _ & Hu1).
    intros Hloop. apply IH in Hloop; lia.
Qed.

(** X12.  When the per-call limit is not negative and the Vision API
    returns at most as many images as it is asked for, [run] uploads
    for a row no more images than the row lacks: none if it has enough,
    none if the watchdog trips. *)
Theorem process_adGroup_never_overshoots (fuel : nat) (row : AdGroupRow)
    (st st' : State W) (c : completion) :
  0 <= VISION_API_LIMIT api ->
  (forall imgPrompt imgCount w,
     0 <= imgCount ->
     images_length (fst (callVisionApi api imgPrompt imgCount w)) <= imgCount) ->
  process_adGroup api CONFIG fuel row st = Done c st' ->
  Z.of_nat (uploads (trace st'))
  <= Z.of_nat (uploads (trace st))
     + Z.max 0 (Number_of_images_per_Ad_Group CONFIG - existing_images api CONFIG row st).
Proof.
  intros Hlimit Hhonest. destruct (watchdog_trips api st) eqn:Hw.
  - unfold process_adGroup, bind at 1. rewrite shouldTerminate_eq, Hw.
    unfold bind, Logger_log, emit, setProperty, createTriggerForNextRun, ret.
    intros [= _ <-]. cbn [trace uploads]. lia.
  - rewrite process_adGroup_quiet_watchdog by done. cbv zeta.
    destruct (Z.geb_spec (existing_images api CONFIG row st)
                (Number_of_images_per_Ad_Group CONFIG)).
    + unfold bind, Logger_log, emit, ret. intros [= _ <-]. cbn [trace uploads]. lia.
    + unfold bind at 1, Logger_log, emit. unfold bind at 1.
      destruct (generate_loop _ _ _ _ _ _ _ _) as [[] st1| |] eqn:Hloop; try discriminate.
      apply generate_loop_uploads_bounded in Hloop; [| done | done | lia].
      unfold bind, setProperty, ret. intros [= _ <-].
      cbn [trace uploads] in *. lia.
Qed.

End Rows.

(** ** How a run ends *)

Section Runs.

Context {W R : Type}.
Variable api : Collaborators W R.
Variable CONFIG : Config.

Lemma loop_entry_state (st : State W) :
  props (snd (loop_entry api st)) = props st /\
  triggers (snd (loop_entry api st)) = O /\
  generation_calls (trace (snd (loop_entry api st))) = generation_calls (trace st) /\
  uploads (trace (snd (loop_entry api st))) = uploads (trace st) /\
  fst (loop_entry api st) = fst (getAdGroups api (world st)).
Proof.
  unfold loop_entry. by destruct (getAdGroups api (world st)).
Qed.

Lemma for_loop_Return (n fuel : nat) (adGroups : list AdGroupRow) :
  forall (i : Z) (st st' : State W),
    for_loop api CONFIG n fuel adGroups i st = Done Return st' ->
    triggers st' = S (triggers st) /\
    exists row,
      row ∈ adGroups /\ props st' !! cursorKey = Some (adGroup_id (adGroup row)).
Proof.
  induction n as [|n IH]; intros i st st'; rewrite for_loop_unfold;
    destruct (_ <? _); try discriminate.
  destruct (index_get adGroups i) as [row|] eqn:Hrow.
  - unfold bind.
    destruct (process_adGroup api CONFIG fuel row st) as [[|] st1| |] eqn:Hp;
      try discriminate.
    + intros Hloop. apply IH in Hloop as [Htr Hcursor].
      apply process_adGroup_triggers in Hp. split; [congruence | done].
    + intros [= <-].
      apply process_adGroup_Return in Hp as (_ & Hprops & Htr & _).
      split; [done |]. exists row. split.
      * unfold index_get in Hrow. destruct (i <? 0); [done |].
        by eapply list_elem_of_lookup_2.
      * rewrite Hprops. apply lookup_insert_eq.
  - unfold bind. rewrite shouldTerminate_eq. discriminate.
Qed.

Lemma run_Return (fuel : nat) (st st' : State W) :
  run api CONFIG fuel st = Done Return st' ->
  triggers st' = 1%nat /\
  exists row,
    row ∈ fst (loop_entry api st) /\
    props st' !! cursorKey = Some (adGroup_id (adGroup row)).
Proof.
  rewrite run_enters. pose proof (loop_entry_state st) as (_ & Htr & _).
  destruct (loop_entry api st) as [adGroups st0]. cbn [fst snd] in *. cbv zeta.
  unfold bind.
  destruct (for_loop _ _ _ _ _ _ _) as [[|] st1| |] eqn:Hloop; try discriminate.
  cbn [run_finish]. intros [= <-].
  apply for_loop_Return in Hloop as [Htr1 Hcursor]. split; [congruence | done].
Qed.

(** X13.  However [run] comes to return: after its last statement the
    cursor property is absent and no trigger is pending; after the
    [return] of the watchdog exactly one trigger is pending and the
    cursor is the identifier of one of the fetched ad groups. *)
Theorem run_exit_state (fuel : nat) (st st' : State W) (c : completion) :
  run api CONFIG fuel st = Done c st' ->
  match c with
  | Normal => props st' !! cursorKey = None /\ triggers st' = O
  | Return =>
      triggers st' = 1%nat /\
      exists row,
        row ∈ fst (getAdGroups api (world st)) /\
        props st' !! cursorKey = Some (adGroup_id (adGroup row))
  end.
Proof.
  destruct c.
  - rewrite run_enters. destruct (loop_entry api st) as [adGroups st0]. cbv zeta.
    unfold bind.
    destruct (for_loop _ _ _ _ _ _ _) as [[|] st1| |]; try discriminate.
    cbn [run_finish]. unfold bind, Logger_log, emit, deleteProperty, deleteTrigger, ret.
    intros [= <-]. split; [apply lookup_delete_eq | reflexivity].
  - intros Hrun. apply run_Return in Hrun as [Htr (row & Hin & Hcursor)].
    pose proof (loop_entry_state st) as (_ & _ & _ & _ & <-).
    split; [done |]. by exists row.
Qed.

Lemma truthy_nonempty (s : string) : s <> "" -> truthy s = true.
Proof. by destruct s. Qed.

(** X14.  A run the watchdog has interrupted is picked up where it
    stopped: when the identifiers are not empty and the follow-up
    invocation fetches the same ad groups, [triggeredRun] enters the
    loop of [run] at a row that carries the persisted identifier, not
    after it. *)
Theorem interrupted_run_resumes (fuel fuel' : nat) (st st1 : State W) :
  run api CONFIG fuel st = Done Return st1 ->
  (forall row, row ∈ fst (getAdGroups api (world st)) -> adGroup_id (adGroup row) <> "") ->
  fst (getAdGroups api (snd (Date_now api (world st1)))) = fst (getAdGroups api (world st)) ->
  exists st2 row,
    triggeredRun api CONFIG fuel' st1 = run api CONFIG fuel' st2 /\
    index_get (fst (loop_entry api st2))
      (startIndex (fst (loop_entry api st2)) (props st2 !! cursorKey)) = Some row /\
    props st1 !! cursorKey = Some (adGroup_id (adGroup row)).
Proof.
  intros Hrun Hids Hsame.
  apply run_Return in Hrun as [_ (row0 & Hin & Hcursor)].
  pose proof (loop_entry_state st) as (_ & _ & _ & _ & Hlist). rewrite Hlist in Hin.
  unfold triggeredRun, bind, now, setProperty.
  destruct (Date_now api (world st1)) as [t w] eqn:Hnow. cbn [snd] in Hsame.
  set (st2 := mkState (<[startTimeKey := Z_toString t]> (props st1)) (triggers st1) w
                (EvSetProperty startTimeKey (Z_toString t) :: trace st1)).
  exists st2.
  pose proof (loop_entry_state st2) as (_ & _ & _ & _ & Hlist2).
  cbn [world st2] in Hlist2. rewrite Hsame in Hlist2.
  assert (props st2 !! cursorKey = Some (adGroup_id (adGroup row0))) as Hcursor2.
  { subst st2. cbn [props]. by rewrite lookup_insert_ne. }
  destruct (findIndex_from_first
              (fun row => String.eqb (adGroup_id (adGroup row)) (adGroup_id (adGroup row0)))
              (fst (getAdGroups api (world st))) 0)
    as (j & row & Hj & Hrow & Hp & _).
  { exists row0. split; [done | apply String.eqb_refl]. }
  exists row. split; [reflexivity |]. rewrite Hlist2, Hcursor2. split.
  - unfold startIndex. rewrite truthy_nonempty by (by apply Hids).
    unfold findIndex. rewrite Hj, Z.add_0_l, index_get_nat. exact Hrow.
  - rewrite Hcursor. f_equal. symmetry. by apply String.eqb_eq.
Qed.

Lemma index_get_in_range {A} (l : list A) (i : Z) :
  0 <= i < Z.of_nat (length l) -> exists x, index_get l i = Some x /\ x ∈ l.
Proof.
  intros Hi. unfold index_get. destruct (Z.ltb_spec i 0); [lia |].
  destruct (lookup_lt_is_Some_2 l (Z.to_nat i)) as [x Hx]; [lia |].
  exists x. split; [done |]. by eapply list_elem_of_lookup_2.
Qed.

Lemma startIndex_known (st : State W) :
  cursor_known api st ->
  0 <= startIndex (fst (loop_entry api st)) (props st !! cursorKey)
    <= Z.of_nat (length (fst (loop_entry api st))).
Proof.
  pose proof (loop_entry_state st) as (_ & _ & _ & _ & ->).
  unfold cursor_known. destruct (persisted_cursor st) as [last|] eqn:Hc.
  - intros (row & Hin & Hid).
    apply persisted_cursor_Some in Hc as [-> Ht]. unfold startIndex. rewrite Ht.
    destruct (findIndex_from_first
                (fun row => String.eqb (adGroup_id (adGroup row)) last)
                (fst (getAdGroups api (world st))) 0)
      as (j & first & Hj & Hfirst & _).
    { exists row. split; [done | by apply String.eqb_eq]. }
    unfold findIndex. rewrite Hj. apply lookup_lt_Some in Hfirst. lia.
  - intros _. rewrite (startIndex_no_cursor _ _ Hc). lia.
Qed.

Lemma idle_refl (st : State W) : idle st st.
Proof. by repeat split. Qed.

Lemma idle_trans (st1 st2 st3 : State W) : idle st1 st2 -> idle st2 st3 -> idle st1 st3.
Proof. unfold idle. intros (? & ? & ? & ?) (? & ? & ? & ?). repeat split; congruence. Qed.

Lemma for_loop_all_enough (fuel : nat) (adGroups : list AdGroupRow) :
  (forall customerId adGroupId dirs w,
     Number_of_images_per_Ad_Group CONFIG
     <= fst (countImages api customerId adGroupId dirs w)) ->
  forall (n : nat) (i : Z) (st : State W),
    0 <= i -> Z.of_nat (length adGroups) - i <= Z.of_nat n ->
    exists c st', for_loop api CONFIG n fuel adGroups i st = Done c st' /\ idle st st'.
Proof.
  intros Henough. induction n as [|n IH]; intros i st Hi Hn; rewrite for_loop_unfold;
    destruct (Z.ltb_spec i (Z.of_nat (length adGroups)));
    try (exists Normal, st; split; [reflexivity | apply idle_refl]); [lia |].
  destruct (index_get_in_range adGroups i) as (row & -> & _); [lia |].
  unfold bind. destruct (watchdog_trips api st) eqn:Hw.
  - unfold process_adGroup, bind at 1. rewrite shouldTerminate_eq, Hw.
    unfold bind, Logger_log, emit, setProperty, createTriggerForNextRun, ret.
    eexists _, _. split; [reflexivity |]. by repeat split.
  - rewrite process_adGroup_quiet_watchdog by done. cbv zeta.
    destruct (Z.geb_spec (existing_images api CONFIG row st)
                (Number_of_images_per_Ad_Group CONFIG)) as [_ | Hlt].
    + unfold bind, Logger_log, emit, ret.
      match goal with
      | |- exists c st', for_loop _ _ _ _ _ _ ?s = _ /\ _ =>
          destruct (IH (i + 1) s) as (c & st' & Hloop & Hidle); [lia | lia |]
      end.
      exists c, st'. split; [exact Hloop |].
      eapply idle_trans; [| exact Hidle]. by repeat split.
    + unfold existing_images in Hlt. specialize (Henough (customer_id (customer row))
        (adGroup_id (adGroup row))
        [Generated_DIR CONFIG; Uploaded_DIR CONFIG; Validated_DIR CONFIG]
        (snd (Date_now api (world st)))). lia.
Qed.

(** X15.  When every ad group already has the configured number of
    images and the cursor, if one is persisted, names a fetched ad
    group, [run] returns, with any fuel and in any mode, without a call
    to the Vision API or to Gemini, without a keyword query and without
    an upload. *)
Theorem run_nothing_to_do (fuel : nat) (st : State W) :
  (forall customerId adGroupId dirs w,
     Number_of_images_per_Ad_Group CONFIG
     <= fst (countImages api customerId adGroupId dirs w)) ->
  cursor_known api st ->
  exists c st', run api CONFIG fuel st = Done c st' /\ idle st st'.
Proof.
  intros Henough Hknown. rewrite run_enters.
  pose proof (startIndex_known st Hknown) as Hstart.
  pose proof (loop_entry_state st) as (_ & _ & Hc0 & Hu0 & _).
  assert (idle st (snd (loop_entry api st))) as Hentry.
  { unfold loop_entry. destruct (getAdGroups api (world st)). by repeat split. }
  destruct (loop_entry api st) as [adGroups st0]. cbn [fst snd] in *. cbv zeta.
  destruct (for_loop_all_enough fuel adGroups Henough
              (Z.to_nat (Z.of_nat (length adGroups)
                         - startIndex adGroups (props st !! cursorKey)))
              (startIndex adGroups (props st !! cursorKey)) st0)
    as (c & st1 & Hloop & Hidle); [lia | lia |].
  unfold bind. rewrite Hloop. destruct c; cbn [run_finish].
  - unfold bind, Logger_log, emit, deleteProperty, deleteTrigger, ret.
    eexists _, _. split; [reflexivity |].
    eapply idle_trans; [exact Hentry |]. eapply idle_trans; [exact Hidle |].
    by repeat split.
  - exists Return, st1. split; [reflexivity |]. by eapply idle_trans.
Qed.

Lemma for_loop_returns (fuel : nat) (adGroups : list AdGroupRow) :
  (forall row, row ∈ adGroups -> prompt_available api CONFIG row) ->
  (forall customerId adGroupId dirs w,
     0 <= fst (countImages api customerId adGroupId dirs w)) ->
  (Z.to_nat (Number_of_images_per_Ad_Group CONFIG) + 4 <= fuel)%nat ->
  forall (n : nat) (i : Z) (st : State W),
    0 <= i -> Z.of_nat (length adGroups) - i <= Z.of_nat n ->
    exists c st',
      for_loop api CONFIG n fuel adGroups i st = Done c st' /\
      (generation_calls (trace st')
       <= generation_calls (trace st)
          + Z.to_nat (Z.of_nat (length adGroups) - i)
            * (Z.to_nat (Number_of_images_per_Ad_Group CONFIG) + 4))%nat.
Proof.
  intros Ha Hcount Hfuel. induction n as [|n IH]; intros i st Hi Hn;
    rewrite for_loop_unfold;
    destruct (Z.ltb_spec i (Z.of_nat (length adGroups)));
    try (exists Normal, st; split; [reflexivity | apply Nat.le_add_r]); [lia |].
  destruct (index_get_in_range adGroups i) as (row & -> & Hin); [lia |].
  unfold bind. destruct (watchdog_trips api st) eqn:Hw.
  - unfold process_adGroup, bind at 1. rewrite shouldTerminate_eq, Hw.
    unfold bind, Logger_log, emit, setProperty, createTriggerForNextRun, ret.
    eexists _, _. split; [reflexivity |]. cbn [trace generation_calls].
    apply Nat.le_add_r.
  - pose proof (Hcount (customer_id (customer row)) (adGroup_id (adGroup row))
                  [Generated_DIR CONFIG; Uploaded_DIR CONFIG; Validated_DIR CONFIG]
                  (snd (Date_now api (world st)))) as Hexisting.
    fold (existing_images api CONFIG row st) in Hexisting.
    destruct (process_adGroup_ends api CONFIG fuel row st Hw (Ha row Hin))
      as (st1 & -> & _ & Hcalls & _); [lia |].
    destruct (IH (i + 1) st1) as (c & st' & Hloop & Hbound); [lia | lia |].
    exists c, st'. split; [exact Hloop |].
    replace (Z.to_nat (Z.of_nat (length adGroups) - i))
      with (S (Z.to_nat (Z.of_nat (length adGroups) - (i + 1)))) by lia.
    nia.
Qed.

(** X16.  [run] always returns, and within a bounded number of calls:
    when the cursor, if one is persisted, names a fetched ad group, a
    request text is available for every ad group, image counts are not
    negative and the fuel covers the configured target plus four passes
    per ad group, [run] ends without an error after at most
    (target + 4) calls to the Vision API per fetched ad group. *)
Theorem run_returns (fuel : nat) (st : State W) :
  cursor_known api st ->
  (forall row,
     row ∈ fst (getAdGroups api (world st)) -> prompt_available api CONFIG row) ->
  (forall customerId adGroupId dirs w,
     0 <= fst (countImages api customerId adGroupId dirs w)) ->
  (Z.to_nat (Number_of_images_per_Ad_Group CONFIG) + 4 <= fuel)%nat ->
  exists c st',
    run api CONFIG fuel st = Done c st' /\
    (generation_calls (trace st')
     <= generation_calls (trace st)
        + length (fst (getAdGroups api (world st)))
          * (Z.to_nat (Number_of_images_per_Ad_Group CONFIG) + 4))%nat.
Proof.
  intros Hknown Ha Hcount Hfuel. rewrite run_enters.
  pose proof (startIndex_known st Hknown) as Hstart.
  pose proof (loop_entry_state st) as (_ & _ & Hc0 & _ & Hlist). rewrite <- Hlist in *.
  destruct (loop_entry api st) as [adGroups st0]. cbn [fst snd] in *. cbv zeta.
  destruct (for_loop_returns fuel adGroups Ha Hcount Hfuel
              (Z.to_nat (Z.of_nat (length adGroups)
                         - startIndex adGroups (props st !! cursorKey)))
              (startIndex adGroups (props st !! cursorKey)) st0)
    as (c & st1 & Hloop & Hbound); [lia | lia |].
  unfold bind. rewrite Hloop.
  assert (Z.to_nat (Z.of_nat (length adGroups)
                    - startIndex adGroups (props st !! cursorKey))
          <= length adGroups)%nat as Hrows by lia.
  destruct c; cbn [run_finish].
  - unfold bind, Logger_log, emit, deleteProperty, deleteTrigger, ret.
    eexists _, _. split; [reflexivity |]. cbn [trace generation_calls]. nia.
  - exists Return, st1. split; [reflexivity |]. nia.
Qed.

Lemma Z_ofString_toString (z : Z) : Z_ofString (Z_toString z) = Some z.
Proof.
  unfold Z_ofString, Z_toString. rewrite NilZero.isi.
  - cbn [option_map]. by rewrite DecimalZ.of_to.
  - destruct z; try discriminate. intros [= H]. by apply Unsigned.to_uint_nonnil in H.
  - destruct z; try discriminate. intros [= H]. by apply Unsigned.to_uint_nonnil in H.
Qed.

(** X17.  [triggeredRun] stores the clock reading as the run-start
    timestamp, leaves the cursor as it is and then runs [run]: read
    back, the stored text is that reading, so the time elapsed is
    counted from the start of this invocation. *)
Theorem triggeredRun_restarts_clock (fuel : nat) (st : State W) :
  exists st1,
    triggeredRun api CONFIG fuel st = run api CONFIG fuel st1 /\
    props st1 !! cursorKey = props st !! cursorKey /\
    forall t, elapsed st1 t = Some (t - fst (Date_now api (world st))).
Proof.
  unfold triggeredRun, bind, now, setProperty.
  destruct (Date_now api (world st)) as [t0 w]. cbn [fst].
  eexists. split; [reflexivity |]. split.
  - cbn [props]. by rewrite lookup_insert_ne.
  - intros t. unfold elapsed. cbn [props]. rewrite lookup_insert_eq.
    cbn. by rewrite Z_ofString_toString.
Qed.

End Runs.

(** ** The further properties on concrete runs *)

Lemma generateImageFileName_within_limit_witness :
  exists fileName st',
    generateImageFileName (scenario_api shoes_and_hats) "1" (repeat_char "a" 200)
      (started []) = Done fileName st' /\
    (String.length fileName <= 128)%nat.
Proof.
  eexists _, _. split; [vm_compute; reflexivity |].
  eapply (generateImageFileName_within_limit (scenario_api shoes_and_hats) "1"
            (repeat_char "a" 200) _ (started [])).
  - vm_compute. lia.
  - vm_compute. lia.
  - vm_compute. reflexivity.
Defined.

Lemma generateImageFileName_keeps_short_name_witness :
  exists st',
    generateImageFileName (scenario_api shoes_and_hats) "1" "Shoes/Ad" (started [])
      = Done "1|ShoesAd|1700000000001" st'.
Proof.
  apply (generateImageFileName_keeps_short_name (scenario_api shoes_and_hats) "1"
           "Shoes/Ad" (started [])).
  vm_compute. lia.
Defined.

Lemma createPrompt_absent_keys_witness :
  createPrompt city_prompt [("country", "France $& and more")] = "A photo of a ${city}".
Proof.
  apply (createPrompt_absent_keys city_prompt [("country", "France $& and more")]).
  intros key value Hin.
  apply elem_of_cons in Hin as [[= -> ->] | Hin]; [reflexivity |].
  by apply elem_of_nil in Hin.
Defined.

(** The end-to-end example returns by its last statement. *)
Lemma shoes_and_hats_run :
  exists st',
    run (scenario_api shoes_and_hats) city_prompt 10 (started []) = Done Normal st'.
Proof. eexists. vm_compute. reflexivity. Qed.

(** With the slow clock the watchdog returns from the run. *)
Lemma slow_clock_run :
  exists st1,
    run (scenario_api (shop (Some ["a"]) 0 100000)) city_prompt 10 (started [])
      = Done Return st1.
Proof. eexists. vm_compute. reflexivity. Qed.

Lemma run_other_properties_untouched_witness :
  exists st',
    run (scenario_api shoes_and_hats) city_prompt 10 (started []) = Done Normal st' /\
    props st' !! startTimeKey = Some "1700000000000".
Proof.
  destruct shoes_and_hats_run as [st' Hrun].
  exists st'. split; [exact Hrun |].
  rewrite (run_other_properties_untouched _ _ _ _ _ _ startTimeKey Hrun); [reflexivity |].
  discriminate.
Defined.

(** A run that finds a cursor no ad group answers to throws. *)
Lemma stale_cursor_run :
  exists e st',
    run (scenario_api shoes_and_hats) city_prompt 10 (started [(cursorKey, "999")])
      = Throw e st'.
Proof. eexists _, _. vm_compute. reflexivity. Qed.

Lemma run_ad_group_mode_no_text_calls_witness :
  (exists st',
     run (scenario_api shoes_and_hats) city_prompt 10 (started []) = Done Normal st' /\
     gemini_calls (trace st') = O /\
     keyword_fetches (trace st') = O) /\
  (exists e st',
     run (scenario_api shoes_and_hats) city_prompt 10 (started [(cursorKey, "999")])
       = Throw e st' /\
     gemini_calls (trace st') = O /\
     keyword_fetches (trace st') = O).
Proof.
  split.
  - destruct shoes_and_hats_run as [st' Hrun].
    pose proof (run_ad_group_mode_no_text_calls (scenario_api shoes_and_hats)
                  city_prompt 10 (started []) eq_refl) as H.
    rewrite Hrun in H. exists st'. split; [exact Hrun | exact H].
  - destruct stale_cursor_run as (e & st' & Hrun).
    pose proof (run_ad_group_mode_no_text_calls (scenario_api shoes_and_hats)
                  city_prompt 10 (started [(cursorKey, "999")]) eq_refl) as H.
    rewrite Hrun in H. exists e, st'. split; [exact Hrun | exact H].
Defined.

Lemma run_batches_within_limit_witness :
  exists st',
    run (scenario_api shoes_and_hats) city_prompt 10 (started []) = Done Normal st' /\
    Forall (fun imgCount => imgCount <= 4) (vision_sizes (trace st')).
Proof.
  destruct shoes_and_hats_run as [st' Hrun].
  exists st'. split; [exact Hrun |].
  apply (run_batches_within_limit _ _ _ _ _ _ Hrun). constructor.
Defined.

Lemma process_adGroup_completes_witness :
  exists st',
    process_adGroup (scenario_api shoes_and_hats) city_prompt 10 (row "7" "1" "Shoes Ad")
      (started []) = Done Normal st' /\
    props st' !! cursorKey = Some "1".
Proof.
  destruct (process_adGroup_completes (scenario_api shoes_and_hats) city_prompt 10
              (row "7" "1" "Shoes Ad") (started []))
    as (st' & Hp & Hprops & _).
  - vm_compute. reflexivity.
  - vm_compute. by eexists.
  - vm_compute. lia.
  - exists st'. split; [exact Hp |]. rewrite Hprops. vm_compute. reflexivity.
Defined.

(** An ad group with one image of two gets its second image. *)
Lemma honest_shop_row :
  exists st',
    process_adGroup (scenario_api (honest_shop 1)) city_prompt 10 (row "7" "1" "Shoes Ad")
      (started []) = Done Normal st'.
Proof. eexists. vm_compute. reflexivity. Qed.

Lemma process_adGroup_never_overshoots_witness :
  exists st',
    process_adGroup (scenario_api (honest_shop 1)) city_prompt 10 (row "7" "1" "Shoes Ad")
      (started []) = Done Normal st' /\
    Z.of_nat (uploads (trace st')) <= 1.
Proof.
  destruct honest_shop_row as [st' Hp].
  exists st'. split; [exact Hp |].
  apply (process_adGroup_never_overshoots _ _ _ _ _ _ _) in Hp.
  - exact Hp.
  - vm_compute. discriminate.
  - intros imgPrompt imgCount w HimgCount.
    cbn. rewrite length_replicate. lia.
Defined.

Lemma run_exit_state_witness :
  exists st1,
    run (scenario_api (shop (Some ["a"]) 0 100000)) city_prompt 10 (started [])
      = Done Return st1 /\
    triggers st1 = 1%nat.
Proof.
  destruct slow_clock_run as [st1 Hrun].
  exists st1. split; [exact Hrun |].
  exact (proj1 (run_exit_state _ _ _ _ _ _ Hrun)).
Defined.

Lemma interrupted_run_resumes_witness :
  exists st1 st2 resumed,
    run (scenario_api (shop (Some ["a"]) 0 100000)) city_prompt 10 (started [])
      = Done Return st1 /\
    triggeredRun (scenario_api (shop (Some ["a"]) 0 100000)) city_prompt 10 st1
      = run (scenario_api (shop (Some ["a"]) 0 100000)) city_prompt 10 st2 /\
    props st1 !! cursorKey = Some (adGroup_id (adGroup resumed)).
Proof.
  destruct slow_clock_run as [st1 Hrun].
  destruct (interrupted_run_resumes (scenario_api (shop (Some ["a"]) 0 100000))
              city_prompt 10 10 (started []) st1 Hrun)
    as (st2 & resumed & Htriggered & _ & Hcursor).
  - intros r Hr. cbn in Hr.
    apply elem_of_cons in Hr as [-> | Hr]; [discriminate |].
    apply elem_of_cons in Hr as [-> | Hr]; [discriminate |].
    apply elem_of_nil in Hr. destruct Hr.
  - cbn. reflexivity.
  - exists st1, st2, resumed. split; [exact Hrun |]. split; [exact Htriggered | exact Hcursor].
Defined.

Lemma run_nothing_to_do_witness :
  exists c st',
    run (scenario_api (shop (Some ["a"]) 5 1)) (config KEYWORDS 2 "") 0 (started [])
      = Done c st' /\
    idle (started []) st'.
Proof.
  apply (run_nothing_to_do (scenario_api (shop (Some ["a"]) 5 1)) (config KEYWORDS 2 "")
           0 (started [])).
  - intros customerId adGroupId dirs w. vm_compute. discriminate.
  - vm_compute. exact I.
Defined.

Lemma run_returns_witness :
  exists c st',
    run (scenario_api shoes_and_hats) city_prompt 10 (started []) = Done c st' /\
    (generation_calls (trace st') <= 12)%nat.
Proof.
  apply (run_returns (scenario_api shoes_and_hats) city_prompt 10 (started [])).
  - vm_compute. exact I.
  - intros r _. vm_compute. by eexists.
  - intros customerId adGroupId dirs w. vm_compute. discriminate.
  - vm_compute. lia.
Defined.

Lemma createPrompt_inject_values_witness :
  createPrompt (config AD_GROUP 2 "$5 off in ${city}") [("city", "London")]
  = "$5 off in London".
Proof.
  etrans.
  - apply (createPrompt_inject_values (config AD_GROUP 2 "$5 off in ${city}")
             [("city", "London")]).
    intros key value Hin.
    apply elem_of_cons in Hin as [Heq | Hin].
    + injection Heq as -> ->. reflexivity.
    + apply elem_of_nil in Hin. destruct Hin.
  - reflexivity.
Defined.

Lemma keywords_joined_first_occurrences_witness :
  exists st',
    build_gAdsData (scenario_api colour_shop) (config KEYWORDS 2 "")
      (row "7" "1" "Shoes Ad") (started []) = Done (Some "red,blue") st'.
Proof.
  destruct (keywords_joined_first_occurrences (scenario_api colour_shop)
              (config KEYWORDS 2 "") (row "7" "1" "Shoes Ad") (started [])
              ["red"; "blue"; "red"] 1700000000000 eq_refl eq_refl)
    as (st' & Hdata & _).
  exists st'. exact Hdata.
Defined.

